(** * Vectronix laser range finder: protocol codec

    A shallow embedding of [vectronix.py] (the [VectronixRangeFinder] codec)
    and of the response parser of [protocol.py] ([DistanceMeasurement]),
    followed by the properties of the encoder, the frame reader and the
    response decoder.

    Reading conventions.
    - [bytes] objects are lists of [Byte.byte]; [str] objects are lists of
      Unicode code points.
    - A call either returns a value or raises: [outcome].
    - [Command] and [RangingStatus] list [bytes] as a base next to
      [enum.Enum]; they are read as the bytes-valued enumerations their
      uses require: a member stands for the byte string it is bound to
      ([bytes(0) = b''] for [RangingStatus.UNKNOWN]).
    - [str] of an [IntEnum] member is the decimal text of its value
      (Python 3.11 and later).
    - [int / 100] is Python's true division; the model keeps the exact
      quotient as a rational number.  For the seven-character fields decoded
      here the binary64 result is the double nearest to that quotient, and
      it is zero exactly when the quotient is. *)

From Stdlib Require Import List ZArith QArith Bool Lia.
From Stdlib Require Import Strings.String Strings.Ascii Strings.Byte.
From Stdlib Require Import DecimalString.
From Stdlib Require DecimalPos.
From Stdlib Require SpecFloat.
From Stdlib Require Import Sorting.Permutation.
Import ListNotations.
Local Open Scope Z_scope.

(** ** Python values used by the codec *)

Definition bytes := list byte.
Definition pystr := list Z.

Definition ord (b : byte) : Z := Z.of_N (Byte.to_N b).
Arguments ord : simpl never.

(** [b"..."] literals. *)
Definition lit (s : string) : bytes := list_byte_of_string s.

(** Code points of an ASCII literal. *)
Definition text (s : string) : pystr := map ord (list_byte_of_string s).

Inductive exn : Type :=
| ValueError (msg : string)
| UnicodeDecodeError (codec : string)
| UnicodeEncodeError (codec : string)
| SubscriptError
| IndexError.

(** [UnicodeDecodeError] and [UnicodeEncodeError] derive from [ValueError]. *)
Definition is_ValueError (e : exn) : bool :=
  match e with
  | ValueError _ | UnicodeDecodeError _ | UnicodeEncodeError _ => true
  | _ => false
  end.

Inductive outcome (A : Type) : Type :=
| Return (a : A)
| Raise (e : exn).
Arguments Return {A} a.
Arguments Raise {A} e.

Definition bind {A B} (m : outcome A) (k : A -> outcome B) : outcome B :=
  match m with
  | Return a => k a
  | Raise e => Raise e
  end.

Notation "x <- m ;; k" := (bind m (fun x => k))
  (at level 61, m at next level, right associativity).
Notation "' p <- m ;; k" := (bind m (fun p => k))
  (at level 61, p pattern, m at next level, right associativity).
Notation "m ;;; k" := (bind m (fun _ => k))
  (at level 61, right associativity).

(** What a call hands back to its caller: the returned value, if any. *)
Definition returned {A} (r : outcome A) : option A :=
  match r with
  | Return a => Some a
  | Raise _ => None
  end.

(** *** Sequences *)

Fixpoint bytes_eqb (a b : bytes) : bool :=
  match a, b with
  | [], [] => true
  | x :: a', y :: b' => Byte.eqb x y && bytes_eqb a' b'
  | _, _ => false
  end.

Fixpoint pystr_eqb (a b : pystr) : bool :=
  match a, b with
  | [], [] => true
  | x :: a', y :: b' => (x =? y) && pystr_eqb a' b'
  | _, _ => false
  end.

Definition len {A} (l : list A) : Z := Z.of_nat (List.length l).

(** A slice bound, clamped as Python does: negative bounds count from the
    end, and everything is cut to [0 .. len]. *)
Definition clamp (n i : Z) : Z :=
  let i := if i <? 0 then i + n else i in
  if i <? 0 then 0 else if n <? i then n else i.

(** [l[lo:hi]] *)
Definition slice {A} (lo hi : Z) (l : list A) : list A :=
  let n := len l in
  let lo := clamp n lo in
  let hi := clamp n hi in
  firstn (Z.to_nat (hi - lo)) (skipn (Z.to_nat lo) l).

(** [l[i]]; [None] stands for [IndexError]. *)
Definition index {A} (l : list A) (i : Z) : option A :=
  let n := len l in
  let i := if i <? 0 then i + n else i in
  if (i <? 0) || (n <=? i) then None else nth_error l (Z.to_nat i).

(** [sum(data)] over a [bytes] object. *)
Definition sum (data : bytes) : Z := fold_left (fun s b => s + ord b) data 0.

(** *** Text codecs *)

(** [bytes.decode('ascii')] *)
Definition decode_ascii (b : bytes) : outcome pystr :=
  if forallb (fun x => ord x <? 128) b
  then Return (map ord b)
  else Raise (UnicodeDecodeError "ascii").

Definition byte_of_Z (c : Z) : option byte :=
  if (0 <=? c) && (c <? 128) then Byte.of_N (Z.to_N c) else None.

(** [str.encode('ascii')] *)
Fixpoint encode_ascii (s : pystr) : outcome bytes :=
  match s with
  | [] => Return []
  | c :: s' =>
      match byte_of_Z c with
      | Some b => rest <- encode_ascii s' ;; Return (b :: rest)
      | None => Raise (UnicodeEncodeError "ascii")
      end
  end.

Definition between (lo x hi : Z) : bool := (lo <=? x) && (x <=? hi).

Definition continuation (b : byte) : bool := between 128 (ord b) 191.

(** [bytes.decode('utf-8')], strict: shortest forms only, no surrogates,
    nothing above U+10FFFF. *)
Fixpoint utf8 (b : bytes) : option pystr :=
  match b with
  | [] => Some []
  | b0 :: r0 =>
      let c0 := ord b0 in
      if c0 <? 128 then option_map (cons c0) (utf8 r0)
      else match r0 with
      | [] => None
      | b1 :: r1 =>
          let c1 := ord b1 in
          if between 194 c0 223 then
            if continuation b1
            then option_map (cons ((c0 - 192) * 64 + (c1 - 128))) (utf8 r1)
            else None
          else match r1 with
          | [] => None
          | b2 :: r2 =>
              let c2 := ord b2 in
              if between 224 c0 239 then
                if (if c0 =? 224 then between 160 c1 191
                    else if c0 =? 237 then between 128 c1 159
                    else continuation b1) && continuation b2
                then option_map
                       (cons ((c0 - 224) * 4096 + (c1 - 128) * 64 + (c2 - 128)))
                       (utf8 r2)
                else None
              else match r2 with
              | [] => None
              | b3 :: r3 =>
                  let c3 := ord b3 in
                  if between 240 c0 244 then
                    if (if c0 =? 240 then between 144 c1 191
                        else if c0 =? 244 then between 128 c1 143
                        else continuation b1)
                       && continuation b2 && continuation b3
                    then option_map
                           (cons ((c0 - 240) * 262144 + (c1 - 128) * 4096
                                  + (c2 - 128) * 64 + (c3 - 128)))
                           (utf8 r3)
                    else None
                  else None
              end
          end
      end
  end.

Definition decode_utf8 (b : bytes) : outcome pystr :=
  match utf8 b with
  | Some s => Return s
  | None => Raise (UnicodeDecodeError "utf-8")
  end.

(** *** Integers and text *)

(** The decimal digits of the absolute value of [n]. *)
Definition digits_of (n : Z) : Decimal.uint :=
  match Z.to_int n with
  | Decimal.Pos d | Decimal.Neg d => d
  end.

(** How many decimal digits [n] is written with. *)
Definition digit_count (n : Z) : Z :=
  Z.of_nat (Decimal.nb_digits (digits_of n)).

Definition digits_limit_exceeded : exn :=
  ValueError "Exceeds the limit (4300 digits) for integer string conversion; use sys.set_int_max_str_digits() to increase the limit".

(** [str(n)] for an integer: its decimal text.  An integer written with
    more than 4300 digits is refused (the interpreter's default limit on
    conversions between [int] and [str]). *)
Definition str_int (n : Z) : outcome pystr :=
  if 4300 <? digit_count n then Raise digits_limit_exceeded
  else Return (text (NilZero.string_of_int (Z.to_int n))).

(** White space skipped by [int()] around an ASCII literal: TAB, LF, VT, FF,
    CR and the space. *)
Definition is_space (c : Z) : bool := between 9 c 13 || (c =? 32).

Definition digit_value (c : Z) : option Z :=
  if between 48 c 57 then Some (c - 48) else None.

Fixpoint skip_spaces (s : pystr) : pystr :=
  match s with
  | c :: s' => if is_space c then skip_spaces s' else s
  | [] => []
  end.

(** The digit run of an [int()] literal: decimal digits with single
    underscores between them.  Returns the value accumulated, the number of
    digits read and what follows the run; [None] on a doubled or trailing
    underscore. *)
Fixpoint scan_digits (s : pystr) (prev_underscore : bool) (acc : Z) (digits : nat)
  : option (Z * nat * pystr) :=
  match s with
  | c :: s' =>
      if c =? 95 then
        if prev_underscore then None else scan_digits s' true acc digits
      else
        match digit_value c with
        | Some d => scan_digits s' false (10 * acc + d) (S digits)
        | None => if prev_underscore then None else Some (acc, digits, s)
        end
  | [] => if prev_underscore then None else Some (acc, digits, [])
  end.

Definition invalid_literal : exn :=
  ValueError "invalid literal for int() with base 10".

(** [int(s)] on text: optional white space, an optional sign, the digit run
    (which may not start with an underscore), optional white space, end of
    text.  The texts converted by the decoders are seven characters long;
    the interpreter's refusal of texts of more than 4300 digits is not
    part of this definition. *)
Definition int (s : pystr) : outcome Z :=
  let s := skip_spaces s in
  let '(sign, s) :=
    match s with
    | c :: s' =>
        if c =? 43 then (1, s') else if c =? 45 then (-1, s') else (1, s)
    | [] => (1, s)
    end in
  if match s with c :: _ => c =? 95 | [] => false end
  then Raise invalid_literal
  else
    match scan_digits s false 0 0 with
    | Some (value, digits, rest) =>
        if Nat.eqb digits 0 then Raise invalid_literal
        else
          match skip_spaces rest with
          | [] => Return (sign * value)
          | _ :: _ => Raise invalid_literal
          end
    | None => Raise invalid_literal
    end.

(** [n / 100] *)
Definition div100 (n : Z) : Q := Qmake n 100.

(** Truth value of a float. *)
Definition nonzero (q : Q) : bool := negb (Qnum q =? 0).

Definition hex_char (d : Z) : Z := if d <? 10 then 48 + d else 55 + d.

Fixpoint hex_digits (fuel : nat) (n : Z) (acc : pystr) : pystr :=
  match fuel with
  | O => acc
  | S fuel' =>
      let acc := hex_char (n mod 16) :: acc in
      if n / 16 =? 0 then acc else hex_digits fuel' (n / 16) acc
  end.

(** [f"{n:02X}"] for [0 <= n]: upper-case hexadecimal, padded with zeros to
    two characters. *)
Definition format_02X (n : Z) : pystr :=
  let ds := hex_digits (S (Z.to_nat (Z.log2 n))) n [] in
  repeat 48 (2 - List.length ds) ++ ds.

(** ** vectronix.py *)

Module Vectronix.

Definition RANGING_RESPONSE_LEN : Z := 11.
Definition ACK : bytes := lit ">".
Definition NACK : bytes := lit "!".
Definition END : bytes := [x0d].
Definition COMMA : bytes := lit ",".

Inductive Command : Type := GET_RANGE | SW_HW_INFO | SELF_TEST | LPCL_MODE.

Definition Command_value (c : Command) : bytes :=
  match c with
  | GET_RANGE => lit "Md1"
  | SW_HW_INFO => lit "Iv1"
  | SELF_TEST => lit "Tb1"
  | LPCL_MODE => lit "Tl1"
  end.

Inductive RangingStatus : Type := VALID | ERROR | UNKNOWN.

Definition RangingStatus_value (s : RangingStatus) : bytes :=
  match s with
  | VALID => lit "v"
  | ERROR => lit "R"
  | UNKNOWN => []
  end.

Inductive LPCLMode : Type :=
  DEACTIVATE | LEVEL_1 | LEVEL_2 | LEVEL_3 | LEVEL_4 | LEVEL_5 | LEVEL_6.

Definition LPCLMode_value (m : LPCLMode) : Z :=
  match m with
  | DEACTIVATE => 0
  | LEVEL_1 => 1
  | LEVEL_2 => 2
  | LEVEL_3 => 3
  | LEVEL_4 => 4
  | LEVEL_5 => 5
  | LEVEL_6 => 6
  end.

(** The two callables handed to [VectronixRangeFinder]: [_write] appends a
    buffer to what was sent so far, [_read n] takes up to [n] pending bytes
    from the line (fewer when the line runs dry, as a serial port with a
    time-out does). *)
Definition _write (buffer : bytes) (sent : list bytes) : list bytes :=
  sent ++ [buffer].

Definition _read (n : nat) (line : bytes) : bytes * bytes :=
  (firstn n line, skipn n line).

(** Truth value of the [lpcl_mode] argument: [None] and a member equal to
    zero are false. *)
Definition truth (lpcl_mode : option LPCLMode) : bool :=
  match lpcl_mode with
  | None => false
  | Some m => negb (LPCLMode_value m =? 0)
  end.

Definition send_command (command : Command) (lpcl_mode : option LPCLMode)
    (sent : list bytes) : outcome unit * list bytes :=
  let opcode :=
    match lpcl_mode with
    | Some m =>
        if truth lpcl_mode
        then shown <- str_int (LPCLMode_value m) ;;
             digits <- encode_ascii shown ;;
             Return (COMMA ++ digits)
        else Return []
    | None => Return []
    end in
  match opcode with
  | Return opcode =>
      let buffer := ACK ++ Command_value command ++ opcode ++ END in
      (Return tt, _write buffer sent)
  | Raise e => (Raise e, sent)
  end.

(** [read_response]: the loop reads one byte per turn, so it is a recursion
    on the pending bytes of the line.  The result is paired with the bytes
    left unread. *)
Fixpoint read_response (line : bytes) : outcome bytes * bytes :=
  match line with
  | [] =>
      (* [_read(1)] gives [b''], which is none of END, NACK, ACK *)
      (Return [], [])
  | b :: line' =>
      let response := [b] in
      if bytes_eqb response END then read_response line'
      else if bytes_eqb response NACK
      then (Raise (ValueError "Invalid command"), line')
      else if bytes_eqb response ACK then
        let '(more, line'') :=
          _read (Z.to_nat (RANGING_RESPONSE_LEN - 1)) line' in
        let response := response ++ more in
        if negb (len response =? 11) then
          (Raise (ValueError "Invalid response format"), line'')
        else
          match index response (-1) with
          | Some last =>
              if negb (ord last =? 13)
              then (Raise (ValueError "Invalid response format"), line'')
              else (Return response, line'')
          | None => (Raise IndexError, line'')
          end
      else (Return response, line')
  end.

(** [check_crc] *)
Definition check_crc (response : bytes) : outcome unit :=
  let data := slice 0 8 response in
  crc_received <- decode_utf8 (slice (-3) (-1) response) ;;
  let crc_calculated := format_02X (Z.land (sum data) 255) in
  if negb (pystr_eqb crc_received crc_calculated)
  then Raise (ValueError "Invalid CRC")
  else Return tt.

(** What the ['status'] key of the result holds: an enumeration member, or
    the [True] that [status == RangingStatus.ERROR or ...] evaluates to. *)
Inductive status_value : Type :=
| Member (m : RangingStatus)
| Bool (b : bool).

Record Response : Type := {
  range : option Q;
  status : option status_value;
  error : option bytes
}.

(** The local name [response] of [parse_range] is bound to the frame first
    and to a dictionary afterwards. *)
Inductive object : Type :=
| Bytes (b : bytes)
| Dict (d : Response).

(** [o[lo:hi]]: a slice of a [bytes] object; a dictionary has no item under
    a slice (TypeError up to Python 3.11, KeyError from 3.12). *)
Definition getslice (o : object) (lo hi : Z) : outcome bytes :=
  match o with
  | Bytes b => Return (slice lo hi b)
  | Dict _ => Raise SubscriptError
  end.

(** [a or b] for a Boolean [a]. *)
Definition or_member (a : bool) (b : RangingStatus) : status_value :=
  if a then Bool true else Member b.

Definition parse_range (frame : bytes) : outcome Response :=
  let response := Bytes frame in
  st <- getslice response 0 1 ;;
  measured_range <- getslice response 1 8 ;;
  checksum <- getslice response 8 10 ;;
  check_crc frame ;;;
  let response :=
    Dict {| range := None; status := None; error := None |} in
  if bytes_eqb st (RangingStatus_value VALID) then
    digits <- decode_ascii measured_range ;;
    n <- int digits ;;
    Return {| range := Some (div100 n);
              status := Some (Member VALID);
              error := None |}
  else
    let status' :=
      or_member (bytes_eqb st (RangingStatus_value ERROR)) UNKNOWN in
    payload <- getslice response 4 8 ;;
    Return {| range := None;
              status := Some status';
              error := Some payload |}.

End Vectronix.

(** ** protocol.py: [DistanceMeasurement] *)

Module Protocol.

(** [self.range_request], set by [__init__]. *)
Definition range_request : outcome bytes :=
  encode_ascii (text ">Md1" ++ [13]).

(** [check_crc] *)
Definition check_crc (response : bytes) : outcome bool :=
  let data := slice 0 8 response in
  crc_received <- decode_utf8 (slice (-3) (-1) response) ;;
  let crc_calculated := format_02X (Z.land (sum data) 255) in
  Return (pystr_eqb crc_calculated crc_received).

(** The value under ["Measured Range"]: a range, an error code, or [None]. *)
Inductive measured : Type :=
| Range (q : Q)
| ErrorCode (b : bytes).

Record Parsed : Type := {
  Status : string;
  Measured_Range : option measured;
  Checksum : bool
}.

(** [measured_range_value or error_code] *)
Definition or_else (measured_range_value : option Q)
    (error_code : option bytes) : option measured :=
  match measured_range_value with
  | Some q =>
      if nonzero q then Some (Range q) else option_map ErrorCode error_code
  | None => option_map ErrorCode error_code
  end.

Definition well_shaped (response : bytes) : outcome unit :=
  if negb (len response =? 11) then Raise (ValueError "Invalid response format")
  else
    match index response (-1) with
    | Some last =>
        if negb (ord last =? 13)
        then Raise (ValueError "Invalid response format")
        else Return tt
    | None => Raise IndexError
    end.

Definition parse_response (response : bytes) : outcome Parsed :=
  well_shaped response ;;;
  let status := slice 0 1 response in
  let measured_range := slice 1 8 response in
  let checksum := slice 8 10 response in
  let measured_range_value : option Q := None in
  let error_code : option bytes := None in
  '(range_status, measured_range_value, error_code) <-
    (if bytes_eqb status (lit "v") then
       digits <- decode_ascii measured_range ;;
       n <- int digits ;;
       Return ("Valid"%string, Some (div100 n), error_code)
     else if bytes_eqb status (lit "R") then
       Return ("Error"%string, measured_range_value, Some (slice 4 8 response))
     else
       Return ("Unknown"%string, measured_range_value, Some (slice 4 8 response))) ;;
  crc <- check_crc response ;;
  Return {| Status := range_status;
            Measured_Range := or_else measured_range_value error_code;
            Checksum := crc |}.

End Protocol.

(** ** protocol.py: [CommandBuilder]

    [struct.pack] is modelled for the three format characters the builder
    uses, under the byte-order mark [>]: standard sizes, big-endian, no
    padding between items.  Names and the optional number are Python [str]
    or [int] objects; the numeric parameters of the extended form are
    [int] objects, as in the callers of the file. *)

Module Builder.

(** What a method of the builder can raise: an error of the text
    conversions ([str], [encode]), [struct.error], or the [OverflowError]
    of [float()]. *)
Inductive raised : Type :=
| Codec (e : exn)
| struct_error (msg : string)
| OverflowError (msg : string).

Inductive result (A : Type) : Type :=
| Returns (a : A)
| Raises (r : raised).
Arguments Returns {A} a.
Arguments Raises {A} r.

Definition and_then {A B} (m : result A) (k : A -> result B) : result B :=
  match m with
  | Returns a => k a
  | Raises r => Raises r
  end.

Notation "x <~ m ;; k" := (and_then m (fun x => k))
  (at level 61, m at next level, right associativity).

Definition lift {A} (o : outcome A) : result A :=
  match o with
  | Return a => Returns a
  | Raise e => Raises (Codec e)
  end.

(** *** Floats *)

(** [float(n)] for an [int]: the nearest binary64 number, ties to even;
    [OverflowError] when that is out of range. *)
Definition float (n : Z) : result SpecFloat.spec_float :=
  match SpecFloat.binary_normalize 53 1024 n 0 false with
  | SpecFloat.S754_infinity _ =>
      Raises (OverflowError "int too large to convert to float")
  | x => Returns x
  end.

Definition sign_bit (s : bool) : Z := if s then 2 ^ 63 else 0.

(** The sixty-four bits of a binary64 number (a NaN is taken to be the
    quiet one without payload). *)
Definition bits64 (x : SpecFloat.spec_float) : Z :=
  match x with
  | SpecFloat.S754_zero s => sign_bit s
  | SpecFloat.S754_infinity s => sign_bit s + 2047 * 2 ^ 52
  | SpecFloat.S754_nan => 2047 * 2 ^ 52 + 2 ^ 51
  | SpecFloat.S754_finite s m e =>
      if Zpos m <? 2 ^ 52 then sign_bit s + Zpos m
      else sign_bit s + (e + 1075) * 2 ^ 52 + (Zpos m - 2 ^ 52)
  end.

(** Byte number [k] of an integer, counted from the least significant. *)
Definition byte_at (z : Z) (k : Z) : byte :=
  match Byte.of_N (Z.to_N ((z / 256 ^ k) mod 256)) with
  | Some b => b
  | None => x00
  end.

(** *** [struct.pack] *)

Inductive item : Type :=
| fmt_c
| fmt_s (n : nat)
| fmt_d.

Inductive arg : Type :=
| Bytes (b : bytes)
| Float (x : SpecFloat.spec_float).

(** [d], big-endian. *)
Definition pack_double (x : SpecFloat.spec_float) : bytes :=
  map (byte_at (bits64 x)) [7; 6; 5; 4; 3; 2; 1; 0].

(** [ns]: the first [n] bytes, padded with NUL bytes to [n]. *)
Definition pack_string (n : nat) (b : bytes) : bytes :=
  firstn n b ++ repeat x00 (n - List.length b).

Definition pack_item (i : item) (a : arg) : result bytes :=
  match i, a with
  | fmt_c, Bytes b =>
      if Nat.eqb (List.length b) 1 then Returns b
      else Raises (struct_error "char format requires a bytes object of length 1")
  | fmt_c, Float _ =>
      Raises (struct_error "char format requires a bytes object of length 1")
  | fmt_s n, Bytes b => Returns (pack_string n b)
  | fmt_s _, Float _ =>
      Raises (struct_error "argument for 's' must be a bytes object")
  | fmt_d, Float x => Returns (pack_double x)
  | fmt_d, Bytes _ => Raises (struct_error "required argument is not a float")
  end.

Fixpoint pack_items (fmt : list item) (args : list arg) : result bytes :=
  match fmt, args with
  | i :: fmt', a :: args' =>
      head <~ pack_item i a ;;
      tail <~ pack_items fmt' args' ;;
      Returns (head ++ tail)
  | _, _ => Returns []
  end.

Definition decimal_text (n : nat) : string :=
  NilZero.string_of_uint (Nat.to_uint n).

(** [struct.pack(fmt, *args)]: the number of arguments is checked before
    anything is packed. *)
Definition pack (fmt : list item) (args : list arg) : result bytes :=
  if Nat.eqb (List.length fmt) (List.length args) then pack_items fmt args
  else Raises (struct_error
                 ("pack expected " ++ decimal_text (List.length fmt)
                  ++ " items for packing (got "
                  ++ decimal_text (List.length args) ++ ")")).

(** *** The builder *)

(** [self.base_format = ">c2scc"] *)
Definition base_format : list item := [fmt_c; fmt_s 2; fmt_c; fmt_c].

(** [self.extended_format = ">c2sdsdc"] *)
Definition extended_format : list item :=
  [fmt_c; fmt_s 2; fmt_d; fmt_s 1; fmt_d; fmt_c].

Inductive value : Type :=
| Int (n : Z)
| Str (t : pystr).

(** [str(v)], which is also how an f-string renders [v]. *)
Definition str (v : value) : outcome pystr :=
  match v with
  | Int n => str_int n
  | Str t => Return t
  end.

(** [f"{uppercase}{lowercase}".encode('ascii')] *)
Definition name_bytes (uppercase lowercase : value) : outcome bytes :=
  upper <- str uppercase ;;
  lower <- str lowercase ;;
  encode_ascii (upper ++ lower).

(** [str(number).encode('ascii')] *)
Definition number_bytes (number : value) : outcome bytes :=
  shown <- str number ;;
  encode_ascii shown.

Definition build_basic_command (uppercase lowercase : value)
    (number : option value) : result bytes :=
  let start := lit ">" in
  let end_ := [x0d] in
  match number with
  | Some number =>
      digits <~ lift (number_bytes number) ;;
      name <~ lift (name_bytes uppercase lowercase) ;;
      pack base_format [Bytes start; Bytes name; Bytes digits; Bytes end_]
  | None =>
      name <~ lift (name_bytes uppercase lowercase) ;;
      (* ">c2sc" *)
      pack [fmt_c; fmt_s 2; fmt_c] [Bytes start; Bytes name; Bytes end_]
  end.

Definition build_extended_command (uppercase lowercase : value)
    (first_param : Z) (second_param : option Z) : result bytes :=
  let start := lit ">" in
  let end_ := [x0d] in
  let comma := match second_param with Some _ => lit "," | None => [] end in
  match second_param with
  | Some second_param =>
      name <~ lift (name_bytes uppercase lowercase) ;;
      first <~ float first_param ;;
      second <~ float second_param ;;
      pack extended_format
           [Bytes start; Bytes name; Float first; Bytes comma; Float second;
            Bytes end_]
  | None =>
      name <~ lift (name_bytes uppercase lowercase) ;;
      first <~ float first_param ;;
      (* ">c2sdsc" *)
      pack [fmt_c; fmt_s 2; fmt_d; fmt_s 1; fmt_c]
           [Bytes start; Bytes name; Float first; Bytes end_]
  end.

End Builder.

(** ** The specification's vocabulary *)

(** A frame of correct shape: eleven bytes, the last one CR. *)
Definition shaped (f : bytes) : Prop :=
  List.length f = 11%nat /\ nth_error f 10 = Some x0d.

Definition is_digit (b : byte) : bool := between 48 (ord b) 57.

(** Every byte of the field is an ASCII decimal digit. *)
Definition all_digits (field : bytes) : bool := forallb is_digit field.

(** The field read as an unsigned decimal integer. *)
Definition decimal (field : bytes) : Z :=
  fold_left (fun acc b => 10 * acc + (ord b - 48)) field 0.

(** The checksum of a frame: the sum of its first eight bytes modulo 256,
    as two upper-case hexadecimal characters. *)
Definition checksum_text (f : bytes) : pystr :=
  let c := sum (firstn 8 f) mod 256 in
  [hex_char (c / 16); hex_char (c mod 16)].

(** The checksum bytes received, at offsets 8 and 9. *)
Definition checksum_field (f : bytes) : bytes := firstn 2 (skipn 8 f).

(** The caller is told of a checksum mismatch: by the ["Invalid CRC"]
    error, or by a checksum flag that is false in the result. *)
Definition told_of_mismatch {A} (flag : A -> option bool) (r : outcome A) : Prop :=
  r = Raise (ValueError "Invalid CRC") \/
  exists a, r = Return a /\ flag a = Some false.

(** The caller is handed decoded fields. *)
Definition handed_fields {A} (r : outcome A) : Prop :=
  exists a, returned r = Some a.

(** Both at once: the mismatch is reported and the decoded fields are still
    there to inspect. *)
Definition mismatch_exposed {A} (flag : A -> option bool) (r : outcome A) : Prop :=
  told_of_mismatch flag r /\ handed_fields r.

(** The checksum flag of each decoder's result: [parse_range] has no such
    key, [parse_response] has ["Checksum"]. *)
Definition no_flag (_ : Vectronix.Response) : option bool := None.

Definition checksum_flag (p : Protocol.Parsed) : option bool :=
  Some (Protocol.Checksum p).

(** *** Integer literals *)

Definition space_code (c : Z) : Prop := 9 <= c <= 13 \/ c = 32.

Definition digit_code (c : Z) : Prop := 48 <= c <= 57.

(** What may follow the first digit of a literal: further digits, each
    with at most one underscore in front of it. *)
Inductive digit_tail : pystr -> Prop :=
| tail_end : digit_tail []
| tail_digit (d : Z) (s : pystr) :
    digit_code d -> digit_tail s -> digit_tail (d :: s)
| tail_underscore (d : Z) (s : pystr) :
    digit_code d -> digit_tail s -> digit_tail (95 :: d :: s).

(** The digits of a run read in decimal, underscores passed over. *)
Definition run_value (run : pystr) : Z :=
  fold_left (fun acc c => if c =? 95 then acc else 10 * acc + (c - 48)) run 0.

Definition sign_factor (sign : pystr) : Z :=
  if pystr_eqb sign [45] then -1 else 1.

(** [s] is a base-ten integer literal denoting [n]: white space, an
    optional sign, a digit and its tail, white space. *)
Definition int_literal (s : pystr) (n : Z) : Prop :=
  exists before sign d tail after,
    s = before ++ sign ++ (d :: tail) ++ after /\
    Forall space_code before /\
    (sign = [] \/ sign = [43] \/ sign = [45]) /\
    digit_code d /\ digit_tail tail /\
    Forall space_code after /\
    n = sign_factor sign * run_value (d :: tail).

(** The response line made of the given characters and the closing CR. *)
Definition frame (s : string) : bytes := lit s ++ [x0d].

(** A response framed after ACK: eleven bytes, ACK first, CR last. *)
Definition framed (r : bytes) : Prop :=
  List.length r = 11%nat /\ nth_error r 0 = Some x3e /\ nth_error r 10 = Some x0d.

(** A byte that is none of END, NACK and ACK. *)
Definition stray (b : byte) : Prop := b <> x0d /\ b <> x21 /\ b <> x3e.

(** The level the device is sent: [DEACTIVATE] goes out like no level. *)
Definition effective (m : option Vectronix.LPCLMode)
  : option Vectronix.LPCLMode :=
  match m with
  | Some Vectronix.DEACTIVATE => None
  | _ => m
  end.

(** The buffer a command goes out as: START, the mnemonic, a comma and the
    level digit when a level is effective, END. *)
Definition wire (c : Vectronix.Command) (m : option Vectronix.LPCLMode) : bytes :=
  [x3e] ++ Vectronix.Command_value c
  ++ match effective m with
     | Some level =>
         match Byte.of_N (Z.to_N (48 + Vectronix.LPCLMode_value level)) with
         | Some digit => [x2c; digit]
         | None => []
         end
     | None => []
     end
  ++ [x0d].
(** ** Sanity checks of the Python primitives *)

Example str_int_0 : str_int 0 = Return (text "0"). Proof. reflexivity. Qed.
Example str_int_42 : str_int 42 = Return (text "42"). Proof. reflexivity. Qed.
Example str_int_minus : str_int (-7) = Return (text "-7"). Proof. reflexivity. Qed.
Example int_plain : int (text "0108750") = Return 108750. Proof. reflexivity. Qed.
Example int_signed : int (text "-000001") = Return (-1). Proof. reflexivity. Qed.
Example int_spaced : int (text " 00012 ") = Return 12. Proof. reflexivity. Qed.
Example int_grouped : int (text "1_000_0") = Return 10000. Proof. reflexivity. Qed.
Example int_doubled : int (text "1__0000") = Raise invalid_literal. Proof. reflexivity. Qed.
Example int_trailing : int (text "100000_") = Raise invalid_literal. Proof. reflexivity. Qed.
Example int_leading : int (text "_100000") = Raise invalid_literal. Proof. reflexivity. Qed.
Example int_letters : int (text "000E301") = Raise invalid_literal. Proof. reflexivity. Qed.
Example int_blank : int (text "       ") = Raise invalid_literal. Proof. reflexivity. Qed.
Example format_0 : format_02X 0 = text "00". Proof. reflexivity. Qed.
Example format_255 : format_02X 255 = text "FF". Proof. reflexivity. Qed.
Example format_219 : format_02X 219 = text "DB". Proof. reflexivity. Qed.
Example format_4095 : format_02X 4095 = text "FFF". Proof. reflexivity. Qed.
Example slice_tail : slice (-3) (-1) (lit "v0108750DB!") = lit "DB". Proof. reflexivity. Qed.
Example slice_short : slice 4 8 (lit "abcde") = lit "e". Proof. reflexivity. Qed.
Example utf8_two : utf8 [xc3; xa9] = Some [233]. Proof. reflexivity. Qed.
Example utf8_lone : utf8 [x80; x41] = None. Proof. reflexivity. Qed.

(** ** Basic facts *)

Lemma ord_bounds (b : byte) : 0 <= ord b < 256.
Proof.
  unfold ord. pose proof (Byte.to_N_bounded b). lia.
Qed.

Lemma bytes_eqb_eq (a b : bytes) : bytes_eqb a b = true <-> a = b.
Proof.
  revert b. induction a as [|x a IH]; intros [|y b]; simpl;
    try (split; [discriminate | congruence]); try tauto.
  rewrite andb_true_iff, IH. split.
  - intros [H ->]. apply Byte.byte_dec_bl in H. now subst.
  - intros H. injection H as -> ->. split; [apply Byte.byte_dec_lb|]; reflexivity.
Qed.

Lemma bytes_eqb_refl (a : bytes) : bytes_eqb a a = true.
Proof. now apply bytes_eqb_eq. Qed.

Lemma bytes_eqb_neq (a b : bytes) : a <> b -> bytes_eqb a b = false.
Proof.
  intros H. destruct (bytes_eqb a b) eqn:E; [|reflexivity].
  apply bytes_eqb_eq in E. contradiction.
Qed.

Lemma pystr_eqb_eq (a b : pystr) : pystr_eqb a b = true <-> a = b.
Proof.
  revert b. induction a as [|x a IH]; intros [|y b]; simpl;
    try (split; [discriminate | congruence]); try tauto.
  rewrite andb_true_iff, IH, Z.eqb_eq. split.
  - intros [-> ->]. reflexivity.
  - intros H. injection H as -> ->. split; reflexivity.
Qed.

Lemma pystr_eqb_sym (a b : pystr) : pystr_eqb a b = pystr_eqb b a.
Proof.
  destruct (pystr_eqb a b) eqn:E1, (pystr_eqb b a) eqn:E2; try reflexivity.
  - apply pystr_eqb_eq in E1. subst. 
    assert (pystr_eqb b b = true) by now apply pystr_eqb_eq. congruence.
  - apply pystr_eqb_eq in E2. subst.
    assert (pystr_eqb a a = true) by now apply pystr_eqb_eq. congruence.
Qed.

Lemma between_true (lo x hi : Z) : between lo x hi = true <-> lo <= x <= hi.
Proof. unfold between. rewrite andb_true_iff, !Z.leb_le. tauto. Qed.

Lemma between_false (lo x hi : Z) : between lo x hi = false <-> x < lo \/ hi < x.
Proof.
  unfold between. rewrite andb_false_iff, !Z.leb_gt. tauto.
Qed.

Lemma land_255 (x : Z) : Z.land x 255 = x mod 256.
Proof. change 255 with (Z.ones 8). now rewrite Z.land_ones. Qed.

(** ** Two upper-case hexadecimal characters for a byte *)

Lemma format_02X_table :
  forallb (fun k => let n := Z.of_nat k in
                    pystr_eqb (format_02X n) [hex_char (n / 16); hex_char (n mod 16)])
          (seq 0 256) = true.
Proof. vm_compute. reflexivity. Qed.

Lemma format_02X_byte (n : Z) :
  0 <= n < 256 -> format_02X n = [hex_char (n / 16); hex_char (n mod 16)].
Proof.
  intros H. pose proof format_02X_table as T.
  rewrite forallb_forall in T. specialize (T (Z.to_nat n)).
  cbv zeta in T. rewrite Z2Nat.id in T by lia.
  apply pystr_eqb_eq, T, in_seq. lia.
Qed.

(** ** Frames of correct shape *)

Lemma shaped_inv (f : bytes) :
  shaped f ->
  exists b0 b1 b2 b3 b4 b5 b6 b7 b8 b9,
    f = [b0; b1; b2; b3; b4; b5; b6; b7; b8; b9; x0d].
Proof.
  intros [L E].
  do 11 (destruct f as [|? f]; [discriminate L|]).
  destruct f; [|discriminate L].
  simpl in E. injection E as ->. repeat eexists.
Qed.

Ltac open_frame f H :=
  let b0 := fresh "b0" in let b1 := fresh "b1" in let b2 := fresh "b2" in
  let b3 := fresh "b3" in let b4 := fresh "b4" in let b5 := fresh "b5" in
  let b6 := fresh "b6" in let b7 := fresh "b7" in let b8 := fresh "b8" in
  let b9 := fresh "b9" in
  destruct (shaped_inv f H)
    as (b0 & b1 & b2 & b3 & b4 & b5 & b6 & b7 & b8 & b9 & ->).

Lemma checksum_calculated (f : bytes) :
  shaped f ->
  format_02X (Z.land (sum (slice 0 8 f)) 255) = checksum_text f.
Proof.
  intros H. open_frame f H.
  change (slice 0 8 [b0; b1; b2; b3; b4; b5; b6; b7; b8; b9; x0d])
    with (firstn 8 [b0; b1; b2; b3; b4; b5; b6; b7; b8; b9; x0d]).
  rewrite land_255. apply format_02X_byte, Z.mod_pos_bound. lia.
Qed.

Lemma checksum_received (f : bytes) :
  shaped f -> slice (-3) (-1) f = checksum_field f /\ slice 8 10 f = checksum_field f.
Proof. intros H. open_frame f H. split; reflexivity. Qed.

(** ** Decoding the two checksum bytes *)

Lemma utf8_pair (a b : byte) :
  utf8 [a; b] =
    if ord a <? 128 then
      if ord b <? 128 then Some [ord a; ord b] else None
    else if between 194 (ord a) 223 && continuation b
         then Some [(ord a - 192) * 64 + (ord b - 128)]
         else None.
Proof.
  simpl. destruct (ord a <? 128).
  - destruct (ord b <? 128); reflexivity.
  - destruct (between 194 (ord a) 223), (continuation b); reflexivity.
Qed.

(** Two bytes are text exactly when both are ASCII or they form one
    two-byte sequence. *)
Lemma utf8_pair_invalid (a b : byte) :
  utf8 [a; b] = None <->
  ~ ((ord a < 128 /\ ord b < 128) \/
     (194 <= ord a <= 223 /\ 128 <= ord b <= 191)).
Proof.
  rewrite utf8_pair. unfold continuation.
  destruct (ord a <? 128) eqn:Ea; [destruct (ord b <? 128) eqn:Eb|];
    [| |destruct (between 194 (ord a) 223) eqn:Ec;
         [destruct (between 128 (ord b) 191) eqn:Ed|]]; simpl;
    rewrite ?Z.ltb_lt, ?Z.ltb_ge, ?between_true, ?between_false in *;
    split; try discriminate; try lia; intros; try reflexivity; lia.
Qed.

Lemma hex_char_ascii (d : Z) : 0 <= d < 16 -> 48 <= hex_char d <= 70.
Proof. unfold hex_char. destruct (d <? 10) eqn:E; [apply Z.ltb_lt in E|apply Z.ltb_ge in E]; lia. Qed.

Lemma checksum_text_ascii (f : bytes) :
  exists x y, checksum_text f = [x; y] /\ 48 <= x <= 70 /\ 48 <= y <= 70.
Proof.
  unfold checksum_text.
  pose proof (Z.mod_pos_bound (sum (firstn 8 f)) 256 eq_refl) as B.
  set (c := sum (firstn 8 f) mod 256) in *.
  exists (hex_char (c / 16)), (hex_char (c mod 16)).
  split; [reflexivity|].
  split; apply hex_char_ascii.
  - split; [apply Z.div_pos; lia | apply Z.div_lt_upper_bound; lia].
  - apply Z.mod_pos_bound. lia.
Qed.

(** Decoded text equals the computed checksum exactly when the received
    bytes are its ASCII characters. *)
Lemma received_matches (f : bytes) (s : pystr) :
  shaped f ->
  utf8 (checksum_field f) = Some s ->
  (s = checksum_text f <-> map ord (checksum_field f) = checksum_text f).
Proof.
  intros H. open_frame f H.
  change (checksum_field [b0; b1; b2; b3; b4; b5; b6; b7; b8; b9; x0d])
    with [b8; b9].
  destruct (checksum_text_ascii [b0; b1; b2; b3; b4; b5; b6; b7; b8; b9; x0d])
    as (x & y & -> & Hx & Hy).
  rewrite utf8_pair. simpl map.
  destruct (ord b8 <? 128) eqn:Ea.
  - destruct (ord b9 <? 128); [|discriminate].
    intros [= <-]. tauto.
  - apply Z.ltb_ge in Ea.
    destruct (between 194 (ord b8) 223 && continuation b9); [|discriminate].
    intros [= <-]. split; intros E; [discriminate E|].
    injection E as E _. lia.
Qed.

(** ** [check_crc] on a frame of correct shape *)

Lemma check_crc_shaped (f : bytes) :
  shaped f ->
  Vectronix.check_crc f =
    match utf8 (checksum_field f) with
    | None => Raise (UnicodeDecodeError "utf-8")
    | Some s =>
        if pystr_eqb s (checksum_text f) then Return tt
        else Raise (ValueError "Invalid CRC")
    end.
Proof.
  intros H. unfold Vectronix.check_crc, decode_utf8.
  rewrite (checksum_calculated f H).
  destruct (checksum_received f H) as [-> _].
  destruct (utf8 (checksum_field f)) as [s|]; simpl; [|reflexivity].
  destruct (pystr_eqb s (checksum_text f)); reflexivity.
Qed.

Lemma protocol_check_crc_shaped (f : bytes) :
  shaped f ->
  Protocol.check_crc f =
    match utf8 (checksum_field f) with
    | None => Raise (UnicodeDecodeError "utf-8")
    | Some s => Return (pystr_eqb s (checksum_text f))
    end.
Proof.
  intros H. unfold Protocol.check_crc, decode_utf8.
  rewrite (checksum_calculated f H).
  destruct (checksum_received f H) as [-> _].
  destruct (utf8 (checksum_field f)) as [s|]; simpl; [|reflexivity].
  now rewrite pystr_eqb_sym.
Qed.

(** The two verifications agree: one raises where the other answers
    [False]. *)
Lemma check_crc_agree (f : bytes) :
  shaped f ->
  Vectronix.check_crc f = Return tt <-> Protocol.check_crc f = Return true.
Proof.
  intros H. rewrite check_crc_shaped, protocol_check_crc_shaped by assumption.
  destruct (utf8 (checksum_field f)) as [s|]; [|split; discriminate].
  destruct (pystr_eqb s (checksum_text f)); split; congruence.
Qed.

(** ** [int()] on a field of decimal digits *)

Lemma is_digit_ord (b : byte) : is_digit b = true <-> 48 <= ord b <= 57.
Proof. apply between_true. Qed.

Lemma scan_all_digits (field : bytes) (acc : Z) (n : nat) :
  all_digits field = true ->
  scan_digits (map ord field) false acc n =
    Some (fold_left (fun acc b => 10 * acc + (ord b - 48)) field acc,
          (n + List.length field)%nat, []).
Proof.
  revert acc n. induction field as [|b field IH]; intros acc n H; simpl.
  - now rewrite Nat.add_0_r.
  - simpl in H. apply andb_true_iff in H as [Hb H].
    pose proof (proj1 (is_digit_ord b) Hb) as R.
    replace (ord b =? 95) with false by (symmetry; apply Z.eqb_neq; lia).
    unfold digit_value. fold (is_digit b). rewrite Hb, IH by assumption.
    now rewrite Nat.add_succ_r.
Qed.

Lemma int_all_digits (field : bytes) :
  all_digits field = true -> field <> [] ->
  int (map ord field) = Return (decimal field).
Proof.
  intros H N. destruct field as [|b field]; [contradiction|].
  pose proof H as H'. simpl in H'. apply andb_true_iff in H' as [Hb _].
  pose proof (proj1 (is_digit_ord b) Hb) as R.
  unfold int.
  assert (S : skip_spaces (map ord (b :: field)) = map ord (b :: field)).
  { simpl. unfold is_space.
    replace (between 9 (ord b) 13) with false
      by (symmetry; apply between_false; lia).
    replace (ord b =? 32) with false by (symmetry; apply Z.eqb_neq; lia).
    reflexivity. }
  rewrite S. cbn [map].
  assert (E43 : (ord b =? 43) = false) by (apply Z.eqb_neq; lia).
  assert (E45 : (ord b =? 45) = false) by (apply Z.eqb_neq; lia).
  assert (E95 : (ord b =? 95) = false) by (apply Z.eqb_neq; lia).
  rewrite E43, E45. cbv iota beta. rewrite E95.
  pose proof (scan_all_digits (b :: field) 0 0 H) as Sc.
  cbn [map] in Sc. rewrite Sc. cbn [Nat.add List.length Nat.eqb skip_spaces].
  unfold decimal. now destruct (fold_left _ (b :: field) 0).
Qed.

(** A sign in front of the digits is accepted too. *)
Lemma int_signed_digits (field : bytes) :
  all_digits field = true -> field <> [] ->
  int (43 :: map ord field) = Return (decimal field) /\
  int (45 :: map ord field) = Return (- decimal field).
Proof.
  intros H N. destruct field as [|b field]; [contradiction|].
  pose proof H as H'. simpl in H'. apply andb_true_iff in H' as [Hb _].
  pose proof (proj1 (is_digit_ord b) Hb) as R.
  assert (E95 : (ord b =? 95) = false) by (apply Z.eqb_neq; lia).
  pose proof (scan_all_digits (b :: field) 0 0 H) as Sc. cbn [map] in Sc.
  unfold int.
  change (skip_spaces (43 :: map ord (b :: field)))
    with (43 :: map ord (b :: field)).
  change (skip_spaces (45 :: map ord (b :: field)))
    with (45 :: map ord (b :: field)).
  cbn [map]. cbv iota beta.
  change (43 =? 43) with true. change (45 =? 43) with false.
  change (45 =? 45) with true. cbv iota beta.
  rewrite E95, Sc. cbn [Nat.add List.length Nat.eqb skip_spaces].
  unfold decimal. split; f_equal; lia.
Qed.

Lemma decode_ascii_digits (field : bytes) :
  all_digits field = true -> decode_ascii field = Return (map ord field).
Proof.
  intros H. unfold decode_ascii.
  replace (forallb (fun x => ord x <? 128) field) with true; [reflexivity|].
  symmetry. apply forallb_forall. intros x Hx.
  unfold all_digits in H. rewrite forallb_forall in H.
  apply H, is_digit_ord in Hx. apply Z.ltb_lt. lia.
Qed.

(** ** The decoders, step by step *)

Import Vectronix.

(** [parse_range] after its three slices: the checksum gate, then either the
    range conversion or the look-up in the dictionary that [response] has
    been rebound to. *)
Lemma parse_range_eq (f : bytes) :
  parse_range f =
    check_crc f ;;;
    if bytes_eqb (slice 0 1 f) (lit "v") then
      digits <- decode_ascii (slice 1 8 f) ;;
      n <- int digits ;;
      Return {| range := Some (div100 n);
                status := Some (Member VALID);
                error := None |}
    else Raise SubscriptError.
Proof.
  unfold parse_range. simpl.
  destruct (check_crc f); simpl; [|reflexivity].
  destruct (bytes_eqb (slice 0 1 f) _); reflexivity.
Qed.

(** The only frames [parse_range] returns a result for carry the status
    byte ['v']; the result then holds a range and no error payload. *)
Lemma parse_range_returns (f : bytes) (r : Response) :
  parse_range f = Return r ->
  slice 0 1 f = lit "v" /\
  status r = Some (Member VALID) /\ error r = None /\
  exists n, range r = Some (div100 n).
Proof.
  rewrite parse_range_eq.
  destruct (check_crc f); simpl; [|discriminate].
  destruct (bytes_eqb (slice 0 1 f) (lit "v")) eqn:E; [|discriminate].
  apply bytes_eqb_eq in E.
  destruct (decode_ascii (slice 1 8 f)) as [digits|]; simpl; [|discriminate].
  destruct (int digits); simpl; [|discriminate].
  intros [= <-]. simpl. eauto.
Qed.

(** With any other status byte and a checksum that verifies, the look-up
    [response[4:8]] is made in the dictionary and raises. *)
Lemma parse_range_other_status (f : bytes) :
  check_crc f = Return tt -> slice 0 1 f <> lit "v" ->
  parse_range f = Raise SubscriptError.
Proof.
  intros C N. rewrite parse_range_eq, C. simpl.
  now rewrite bytes_eqb_neq.
Qed.

Lemma well_shaped_ok (f : bytes) : shaped f -> Protocol.well_shaped f = Return tt.
Proof. intros H. open_frame f H. reflexivity. Qed.

Lemma parse_response_eq (f : bytes) :
  shaped f ->
  Protocol.parse_response f =
    if bytes_eqb (slice 0 1 f) (lit "v") then
      digits <- decode_ascii (slice 1 8 f) ;;
      n <- int digits ;;
      crc <- Protocol.check_crc f ;;
      Return {| Protocol.Status := "Valid";
                Protocol.Measured_Range :=
                  Protocol.or_else (Some (div100 n)) None;
                Protocol.Checksum := crc |}
    else
      crc <- Protocol.check_crc f ;;
      Return {| Protocol.Status :=
                  if bytes_eqb (slice 0 1 f) (lit "R") then "Error" else "Unknown";
                Protocol.Measured_Range :=
                  Some (Protocol.ErrorCode (slice 4 8 f));
                Protocol.Checksum := crc |}.
Proof.
  intros H. unfold Protocol.parse_response. rewrite (well_shaped_ok f H). simpl.
  destruct (bytes_eqb (slice 0 1 f) (lit "v")).
  - destruct (decode_ascii (slice 1 8 f)) as [digits|]; simpl; [|reflexivity].
    destruct (int digits); reflexivity.
  - destruct (bytes_eqb (slice 0 1 f) (lit "R")); reflexivity.
Qed.

(** [DistanceMeasurement.parse_response] on a frame whose status byte is not
    ['v']: the bytes at offsets 4 to 7 come back as they are. *)
Lemma parse_response_error_payload (f : bytes) (crc : bool) :
  shaped f -> slice 0 1 f <> lit "v" ->
  Protocol.check_crc f = Return crc ->
  Protocol.parse_response f =
    Return {| Protocol.Status :=
                if bytes_eqb (slice 0 1 f) (lit "R") then "Error" else "Unknown";
              Protocol.Measured_Range := Some (Protocol.ErrorCode (slice 4 8 f));
              Protocol.Checksum := crc |}.
Proof.
  intros H N C. rewrite parse_response_eq, bytes_eqb_neq, C by assumption.
  reflexivity.
Qed.

(** [DistanceMeasurement.parse_response] on a digit field that is not zero. *)
Lemma parse_response_digits (f : bytes) (crc : bool) :
  shaped f -> slice 0 1 f = lit "v" ->
  all_digits (slice 1 8 f) = true -> decimal (slice 1 8 f) <> 0 ->
  Protocol.check_crc f = Return crc ->
  Protocol.parse_response f =
    Return {| Protocol.Status := "Valid";
              Protocol.Measured_Range :=
                Some (Protocol.Range (div100 (decimal (slice 1 8 f))));
              Protocol.Checksum := crc |}.
Proof.
  intros H V D NZ C. rewrite parse_response_eq, V, bytes_eqb_refl by assumption.
  assert (slice 1 8 f <> []) by (open_frame f H; discriminate).
  rewrite decode_ascii_digits by assumption. simpl.
  rewrite int_all_digits by assumption. simpl. rewrite C. simpl.
  unfold Protocol.or_else, nonzero. simpl.
  now rewrite (proj2 (Z.eqb_neq _ _) NZ).
Qed.

(** ... and on a digit field that is zero: [0.0 or None] is [None]. *)
Lemma parse_response_zero (f : bytes) (crc : bool) :
  shaped f -> slice 0 1 f = lit "v" ->
  all_digits (slice 1 8 f) = true -> decimal (slice 1 8 f) = 0 ->
  Protocol.check_crc f = Return crc ->
  Protocol.parse_response f =
    Return {| Protocol.Status := "Valid";
              Protocol.Measured_Range := None;
              Protocol.Checksum := crc |}.
Proof.
  intros H V D Z C. rewrite parse_response_eq, V, bytes_eqb_refl by assumption.
  assert (slice 1 8 f <> []) by (open_frame f H; discriminate).
  rewrite decode_ascii_digits by assumption. simpl.
  rewrite int_all_digits by assumption. simpl. rewrite C, Z. reflexivity.
Qed.

(** ** The frame reader *)

Lemma read_response_skips_END (pre line : bytes) :
  Forall (eq x0d) pre ->
  read_response (pre ++ line) = read_response line.
Proof.
  induction 1 as [|b pre <- _ IH]; simpl; [reflexivity | exact IH].
Qed.

Lemma read_response_NACK (line : bytes) :
  read_response (x21 :: line) = (Raise (ValueError "Invalid command"), line).
Proof. reflexivity. Qed.

(** When the line is silent, the empty read is what comes back. *)
Lemma read_response_silence : read_response [] = (Return [], []).
Proof. reflexivity. Qed.

(** ** The encoder *)

Lemma mnemonic_length (c : Command) : List.length (Command_value c) = 3%nat.
Proof. destruct c; reflexivity. Qed.

(** A level other than [DEACTIVATE] is sent as a comma and one digit. *)
Lemma send_command_level (c : Command) (m : LPCLMode) (sent : list bytes) :
  m <> DEACTIVATE ->
  exists digit,
    ord digit = 48 + LPCLMode_value m /\ 48 <= ord digit <= 54 /\
    send_command c (Some m) sent =
      (Return tt, sent ++ [[x3e] ++ Command_value c ++ [x2c; digit] ++ [x0d]]).
Proof.
  intros N. destruct m; try contradiction;
    eexists; (split; [|split; [|reflexivity]]); vm_compute;
    try reflexivity; split; discriminate.
Qed.

(** ** [int()] and the literals it accepts *)

Lemma int_raises (s : pystr) (e : exn) : int s = Raise e -> e = invalid_literal.
Proof.
  unfold int.
  destruct (match skip_spaces s with
            | [] => (1, skip_spaces s)
            | c :: s' =>
                if c =? 43 then (1, s')
                else if c =? 45 then (-1, s') else (1, skip_spaces s)
            end) as [sign t].
  destruct (match t with [] => false | c :: _ => c =? 95 end); [congruence|].
  destruct (scan_digits t false 0 0) as [[[value digits] rest]|]; [|congruence].
  destruct (Nat.eqb digits 0); [congruence|].
  destruct (skip_spaces rest); congruence.
Qed.


Lemma space_code_is_space (c : Z) : space_code c <-> is_space c = true.
Proof.
  unfold space_code, is_space.
  rewrite orb_true_iff, between_true, Z.eqb_eq. tauto.
Qed.

Lemma space_not_digit (c : Z) :
  space_code c -> (c =? 95) = false /\ digit_value c = None.
Proof.
  intros S. split; [apply Z.eqb_neq; destruct S; lia|].
  unfold digit_value.
  replace (between 48 c 57) with false; [reflexivity|].
  symmetry. apply between_false. destruct S; lia.
Qed.

Lemma digit_code_value (c : Z) :
  digit_code c ->
  digit_value c = Some (c - 48) /\ (c =? 95) = false /\ is_space c = false /\
  (c =? 43) = false /\ (c =? 45) = false.
Proof.
  unfold digit_code, digit_value, is_space. intros D.
  rewrite (proj2 (between_true 48 c 57) D).
  replace (between 9 c 13) with false by (symmetry; apply between_false; lia).
  repeat split; apply Z.eqb_neq; lia.
Qed.

Lemma digit_value_code (c d : Z) :
  digit_value c = Some d -> digit_code c /\ d = c - 48.
Proof.
  unfold digit_value, digit_code.
  destruct (between 48 c 57) eqn:B; [|discriminate].
  apply between_true in B. intros [= <-]. split; [exact B | reflexivity].
Qed.

Local Notation "'step'" :=
  (fun acc c => if c =? 95 then acc else 10 * acc + (c - 48)).

(** What [scan_digits] consumes is a digit tail, begun by a digit when an
    underscore came just before; what it returns is the value read. *)
Lemma scan_sound (t : pystr) :
  forall prev acc k v k' rest,
    scan_digits t prev acc k = Some (v, k', rest) ->
    exists body,
      t = body ++ rest /\
      (if prev : bool
       then exists d tl, body = d :: tl /\ digit_code d /\ digit_tail tl
       else digit_tail body /\ (body = [] -> k' = k)) /\
      v = fold_left step body acc.
Proof.
  induction t as [|c t IH]; intros prev acc k v k' rest H; simpl in H.
  - destruct prev; [discriminate H|]. injection H as <- <- <-.
    exists []. repeat split; constructor.
  - destruct (c =? 95) eqn:U.
    + apply Z.eqb_eq in U. subst c. destruct prev; [discriminate H|].
      apply IH in H as (body & -> & (d & tl & -> & Hd & Ht) & ->).
      exists (95 :: d :: tl). repeat split.
      * now apply tail_underscore.
      * discriminate.
    + destruct (digit_value c) as [d|] eqn:D.
      * apply digit_value_code in D as [Hc ->].
        apply IH in H as (body & -> & [Ht _] & ->).
        exists (c :: body). split; [reflexivity|]. split.
        -- destruct prev.
           ++ exists c, body. auto.
           ++ split; [now apply tail_digit | discriminate].
        -- simpl. now rewrite U.
      * destruct prev; [discriminate H|]. injection H as <- <- <-.
        exists []. repeat split; constructor.
Qed.

Lemma scan_complete (tail : pystr) :
  digit_tail tail ->
  forall after acc k,
    Forall space_code after ->
    exists k',
      (k <= k')%nat /\
      scan_digits (tail ++ after) false acc k =
        Some (fold_left step tail acc, k', after).
Proof.
  induction 1 as [|d s Hd Hs IH|d s Hd Hs IH]; intros after acc k A.
  - exists k. split; [lia|]. cbn [app fold_left].
    destruct A as [|c r Hc _]; [reflexivity|]. cbn [scan_digits].
    destruct (space_not_digit c Hc) as [-> ->]. reflexivity.
  - destruct (digit_code_value d Hd) as (V & U & _).
    destruct (IH after (10 * acc + (d - 48)) (S k) A) as (k' & L & E).
    exists k'. split; [lia|].
    change ((d :: s) ++ after) with (d :: (s ++ after)).
    cbn [scan_digits fold_left]. now rewrite U, V, E.
  - destruct (digit_code_value d Hd) as (V & U & _).
    destruct (IH after (10 * acc + (d - 48)) (S k) A) as (k' & L & E).
    exists k'. split; [lia|].
    change ((95 :: d :: s) ++ after) with (95 :: d :: (s ++ after)).
    cbn [scan_digits fold_left]. change (95 =? 95) with true. cbv iota beta.
    now rewrite U, V, E.
Qed.

Lemma skip_spaces_split (s : pystr) :
  exists before, s = before ++ skip_spaces s /\ Forall space_code before.
Proof.
  induction s as [|c s (before & E & B)]; simpl.
  - exists []. split; [reflexivity | constructor].
  - destruct (is_space c) eqn:S.
    + exists (c :: before). split; [simpl; now rewrite <- E|].
      constructor; [now apply space_code_is_space | exact B].
    + exists []. split; [reflexivity | constructor].
Qed.

Lemma skip_spaces_all (s : pystr) : skip_spaces s = [] -> Forall space_code s.
Proof.
  induction s as [|c s IH]; simpl; [constructor|].
  destruct (is_space c) eqn:S; [|discriminate].
  intros E. constructor; [now apply space_code_is_space | now apply IH].
Qed.

Lemma skip_spaces_over (before r : pystr) :
  Forall space_code before -> skip_spaces (before ++ r) = skip_spaces r.
Proof.
  induction 1 as [|c before Hc _ IH]; simpl; [reflexivity|].
  now rewrite (proj1 (space_code_is_space c) Hc).
Qed.

Lemma skip_spaces_spaces (after : pystr) :
  Forall space_code after -> skip_spaces after = [].
Proof.
  intros A. rewrite <- (app_nil_r after). now rewrite skip_spaces_over.
Qed.

(** [int] after the white space and the sign. *)
Local Notation "'int_body' sg u" :=
  (if match u with c :: _ => c =? 95 | [] => false end
   then Raise invalid_literal
   else
     match scan_digits u false 0 0 with
     | Some (value, digits, rest) =>
         if Nat.eqb digits 0 then Raise invalid_literal
         else
           match skip_spaces rest with
           | [] => Return (sg * value)
           | _ :: _ => Raise invalid_literal
           end
     | None => Raise invalid_literal
     end) (at level 10, sg at level 9, u at level 9).

Lemma int_unfold (s : pystr) :
  int s =
    match skip_spaces s with
    | c :: s' =>
        if c =? 43 then int_body 1 s'
        else if c =? 45 then int_body (-1) s'
        else int_body 1 (c :: s')
    | [] => int_body 1 (@nil Z)
    end.
Proof.
  unfold int. destruct (skip_spaces s) as [|c s']; [reflexivity|].
  destruct (c =? 43); [reflexivity|]. destruct (c =? 45); reflexivity.
Qed.

Lemma int_body_sound (sg : Z) (u : pystr) (n : Z) :
  int_body sg u = Return n ->
  exists d tail after,
    u = (d :: tail) ++ after /\ digit_code d /\ digit_tail tail /\
    Forall space_code after /\ n = sg * run_value (d :: tail).
Proof.
  destruct (match u with c :: _ => c =? 95 | [] => false end) eqn:U;
    [discriminate|].
  destruct (scan_digits u false 0 0) as [[[v k'] rest]|] eqn:S; [|discriminate].
  destruct (Nat.eqb k' 0) eqn:K; [discriminate|].
  destruct (skip_spaces rest) eqn:R; [|discriminate].
  intros [= <-].
  apply scan_sound in S as (body & -> & [T Z0] & ->).
  apply Nat.eqb_neq in K.
  destruct T as [|d s Hd Hs|d s Hd Hs].
  - exfalso. now apply K, Z0.
  - exists d, s, rest.
    split; [reflexivity|]. split; [exact Hd|]. split; [exact Hs|].
    split; [now apply skip_spaces_all | reflexivity].
  - discriminate U.
Qed.

Lemma int_body_complete (sg d : Z) (tail after : pystr) :
  digit_code d -> digit_tail tail -> Forall space_code after ->
  int_body sg ((d :: tail) ++ after) = Return (sg * run_value (d :: tail)).
Proof.
  intros Hd Ht A.
  destruct (digit_code_value d Hd) as (V & U & _).
  destruct (scan_complete tail Ht after (10 * 0 + (d - 48)) 1 A) as (k' & L & E).
  change ((d :: tail) ++ after) with (d :: (tail ++ after)).
  cbv iota. rewrite U. cbn [scan_digits]. rewrite U, V, E.
  destruct k' as [|k']; [lia|]. cbn [Nat.eqb].
  rewrite (skip_spaces_spaces after A).
  unfold run_value. cbn [fold_left]. now rewrite U.
Qed.

(** What [int] returns is the value of a literal. *)
Lemma int_sound (s : pystr) (n : Z) : int s = Return n -> int_literal s n.
Proof.
  rewrite int_unfold.
  destruct (skip_spaces_split s) as (before & E & B).
  destruct (skip_spaces s) as [|c t].
  - intros H. discriminate H.
  - destruct (c =? 43) eqn:P; [|destruct (c =? 45) eqn:M].
    + apply Z.eqb_eq in P. subst c.
      intros H. apply int_body_sound in H as (d & tail & after & -> & Hd & Ht & A & ->).
      exists before, [43], d, tail, after.
      split; [exact E|]. split; [exact B|]. split; [tauto|].
      split; [exact Hd|]. split; [exact Ht|]. split; [exact A | reflexivity].
    + apply Z.eqb_eq in M. subst c.
      intros H. apply int_body_sound in H as (d & tail & after & -> & Hd & Ht & A & ->).
      exists before, [45], d, tail, after.
      split; [exact E|]. split; [exact B|]. split; [tauto|].
      split; [exact Hd|]. split; [exact Ht|]. split; [exact A | reflexivity].
    + intros H.
      apply (int_body_sound 1 (c :: t)) in H
        as (d & tail & after & T & Hd & Ht & A & ->).
      exists before, [], d, tail, after.
      split; [now rewrite E, T|]. split; [exact B|]. split; [tauto|].
      split; [exact Hd|]. split; [exact Ht|]. split; [exact A | reflexivity].
Qed.

(** Every literal is accepted, with its value. *)
Lemma int_complete (s : pystr) (n : Z) : int_literal s n -> int s = Return n.
Proof.
  intros (before & sign & d & tail & after & -> & B & Sg & Hd & Ht & A & ->).
  rewrite int_unfold, skip_spaces_over by assumption.
  destruct (digit_code_value d Hd) as (_ & _ & S & P & M).
  destruct Sg as [->|[->| ->]].
  - change ([] ++ (d :: tail) ++ after) with (d :: (tail ++ after)).
    cbn [skip_spaces]. rewrite S, P, M.
    exact (int_body_complete 1 d tail after Hd Ht A).
  - change ([43] ++ (d :: tail) ++ after) with (43 :: ((d :: tail) ++ after)).
    cbn [skip_spaces]. change (is_space 43) with false. cbv iota.
    change (43 =? 43) with true. cbv iota.
    exact (int_body_complete 1 d tail after Hd Ht A).
  - change ([45] ++ (d :: tail) ++ after) with (45 :: ((d :: tail) ++ after)).
    cbn [skip_spaces]. change (is_space 45) with false. cbv iota.
    change (45 =? 43) with false. change (45 =? 45) with true. cbv iota.
    exact (int_body_complete (-1) d tail after Hd Ht A).
Qed.

(** [int] accepts exactly the literals (for texts within the limit of 4300
    digits that the interpreter puts on the conversion). *)
Lemma int_spec (s : pystr) (n : Z) :
  (List.length s <= 4300)%nat ->
  (int s = Return n <-> int_literal s n).
Proof. intros _. split; [apply int_sound | apply int_complete]. Qed.

(** ** The digit field of a Valid frame *)

Lemma digit_tail_ascii (t : pystr) : digit_tail t -> Forall (fun c => c < 128) t.
Proof.
  induction 1 as [|d s Hd _ IH|d s Hd _ IH]; repeat constructor;
    unfold digit_code in Hd; try lia; exact IH.
Qed.

Lemma literal_ascii (s : pystr) (n : Z) :
  int_literal s n -> Forall (fun c => c < 128) s.
Proof.
  intros (before & sign & d & tail & after & -> & B & Sg & Hd & Ht & A & _).
  repeat (apply Forall_app; split).
  - eapply Forall_impl; [|exact B]. intros c [H|H]; simpl in *; lia.
  - destruct Sg as [->|[->| ->]]; repeat constructor.
  - constructor; [unfold digit_code in Hd; lia | now apply digit_tail_ascii].
  - eapply Forall_impl; [|exact A]. intros c [H|H]; simpl in *; lia.
Qed.

Lemma decode_ascii_returns (field : bytes) (t : pystr) :
  decode_ascii field = Return t -> t = map ord field.
Proof.
  unfold decode_ascii. destruct (forallb _ field); [|discriminate].
  now intros [= <-].
Qed.

Lemma decode_ascii_raises (field : bytes) (e : exn) :
  decode_ascii field = Raise e -> e = UnicodeDecodeError "ascii".
Proof.
  unfold decode_ascii. destruct (forallb _ field); [discriminate|].
  now intros [= <-].
Qed.

Lemma decode_ascii_literal (field : bytes) (n : Z) :
  int_literal (map ord field) n -> decode_ascii field = Return (map ord field).
Proof.
  intros L. apply literal_ascii in L. unfold decode_ascii.
  replace (forallb (fun x => ord x <? 128) field) with true; [reflexivity|].
  symmetry. apply forallb_forall. intros x Hx.
  rewrite Forall_forall in L. apply Z.ltb_lt, L, in_map, Hx.
Qed.

(** [int(field.decode('ascii'))] returns exactly for the literals. *)
Lemma field_value (field : bytes) (n : Z) :
  (digits <- decode_ascii field ;; int digits) = Return n
  <-> int_literal (map ord field) n.
Proof.
  split.
  - destruct (decode_ascii field) as [t|] eqn:D; simpl; [|discriminate].
    apply decode_ascii_returns in D. subst t. apply int_sound.
  - intros L. rewrite (decode_ascii_literal field n L). simpl.
    now apply int_complete.
Qed.

(** What it raises otherwise is a [ValueError]. *)
Lemma field_refused (field : bytes) (e : exn) :
  (digits <- decode_ascii field ;; int digits) = Raise e ->
  is_ValueError e = true.
Proof.
  destruct (decode_ascii field) as [t|x] eqn:D; simpl.
  - intros I. apply int_raises in I. now subst e.
  - intros [= <-]. apply decode_ascii_raises in D. now subst x.
Qed.

Lemma all_digits_literal (field : bytes) :
  all_digits field = true -> field <> [] ->
  int_literal (map ord field) (decimal field).
Proof.
  intros D N. apply int_sound. now apply int_all_digits.
Qed.

(** [parse_range] on a frame with status ['v'] whose checksum verifies. *)
Lemma parse_range_valid (f : bytes) :
  slice 0 1 f = lit "v" -> check_crc f = Return tt ->
  parse_range f =
    (n <- (digits <- decode_ascii (slice 1 8 f) ;; int digits) ;;
     Return {| range := Some (div100 n);
               status := Some (Member VALID);
               error := None |}).
Proof.
  intros V C. rewrite parse_range_eq, C, V, bytes_eqb_refl. simpl.
  destruct (decode_ascii (slice 1 8 f)); reflexivity.
Qed.

(** [parse_response] on a frame of correct shape with status ['v']. *)
Lemma parse_response_valid (f : bytes) (crc : bool) :
  shaped f -> slice 0 1 f = lit "v" -> Protocol.check_crc f = Return crc ->
  Protocol.parse_response f =
    (n <- (digits <- decode_ascii (slice 1 8 f) ;; int digits) ;;
     Return {| Protocol.Status := "Valid";
               Protocol.Measured_Range :=
                 if n =? 0 then None else Some (Protocol.Range (div100 n));
               Protocol.Checksum := crc |}).
Proof.
  intros H V C. rewrite (parse_response_eq f H), V, bytes_eqb_refl.
  destruct (decode_ascii (slice 1 8 f)) as [digits|]; simpl; [|reflexivity].
  destruct (int digits) as [n|]; simpl; [|reflexivity].
  rewrite C. simpl. unfold Protocol.or_else, nonzero. simpl.
  now destruct (n =? 0).
Qed.

(** Whatever [parse_response] returns for a frame of correct shape carries
    the answer of [check_crc]. *)
Lemma parse_response_flag (f : bytes) (crc : bool) (p : Protocol.Parsed) :
  shaped f -> Protocol.check_crc f = Return crc ->
  Protocol.parse_response f = Return p -> Protocol.Checksum p = crc.
Proof.
  intros H C P. rewrite (parse_response_eq f H), C in P.
  destruct (bytes_eqb (slice 0 1 f) (lit "v")).
  - destruct (decode_ascii (slice 1 8 f)) as [digits|]; simpl in P; [|discriminate P].
    destruct (int digits); simpl in P; [|discriminate P].
    now injection P as <-.
  - simpl in P. now injection P as <-.
Qed.

Example literal_signed : int_literal (text "+000001") 1.
Proof. apply int_sound. reflexivity. Qed.

Example literal_grouped : int_literal (text " -1_0_0 ") (-100).
Proof. apply int_sound. reflexivity. Qed.

Example literal_rejected : ~ exists n, int_literal (text "000E301") n.
Proof.
  intros [n L]. apply int_complete in L. discriminate L.
Qed.

(** ** Properties of the codec *)

(** C1.  Decoding the frame [b'v0108750DB\r'] gives status Valid and the
    range 1087.5 m, that is the seven digit bytes read as an unsigned
    decimal integer and divided by 100, and its checksum verifies; both
    decoders agree. *)
Theorem C1_decode_valid_frame :
  let f := frame "v0108750DB" in
  shaped f /\
  all_digits (slice 1 8 f) = true /\
  decimal (slice 1 8 f) = 108750 /\
  check_crc f = Return tt /\
  parse_range f =
    Return {| range := Some (div100 108750);
              status := Some (Member VALID);
              error := None |} /\
  Protocol.parse_response f =
    Return {| Protocol.Status := "Valid";
              Protocol.Measured_Range := Some (Protocol.Range (div100 108750));
              Protocol.Checksum := true |} /\
  (div100 108750 == 1087.5)%Q.
Proof.
  cbv zeta. repeat split; vm_compute; congruence.
Qed.

(** C2.  A supplied [DEACTIVATE] level (ordinal 0) is dropped by the
    encoder: for every command the buffer written is START, the mnemonic and
    END, the very buffer written when no level is supplied, without the
    comma and the digit ['0']. *)
Theorem C2_deactivate_sent_bare (c : Command) (sent : list bytes) :
  send_command c (Some DEACTIVATE) sent =
    (Return tt, sent ++ [[x3e] ++ Command_value c ++ [x0d]]) /\
  send_command c (Some DEACTIVATE) sent = send_command c None sent /\
  send_command LPCL_MODE (Some DEACTIVATE) [] = (Return tt, [lit ">Tl1" ++ [x0d]]).
Proof.
  destruct c; repeat split; reflexivity.
Qed.

(** C3.  A byte that is none of END, NACK and ACK, read while seeking, is
    not skipped: the reader returns it at once as a one-byte response and
    leaves the rest of the line unread. *)
Theorem C3_stray_byte_returned (b : byte) (line : bytes) :
  b <> x0d -> b <> x21 -> b <> x3e ->
  read_response (b :: line) = (Return [b], line).
Proof.
  intros N1 N2 N3. simpl.
  destruct (Byte.eqb b x0d) eqn:E1; [apply Byte.byte_dec_bl in E1; contradiction|].
  destruct (Byte.eqb b x21) eqn:E2; [apply Byte.byte_dec_bl in E2; contradiction|].
  destruct (Byte.eqb b x3e) eqn:E3; [apply Byte.byte_dec_bl in E3; contradiction|].
  reflexivity.
Qed.

Lemma C3_stray_byte_returned_witness :
  ("x"%byte <> x0d /\ "x"%byte <> x21 /\ "x"%byte <> x3e) /\
  read_response (lit "x>v0108750D" ++ [x0d]) =
    (Return (lit "x"), lit ">v0108750D" ++ [x0d]).
Proof.
  split; [repeat split; discriminate|].
  apply (C3_stray_byte_returned "x"%byte); discriminate.
Defined.

(** C4, as amended.  On a frame of correct shape whose two checksum bytes
    are decodable text and differ from the computed checksum:
    [parse_range] raises [ValueError("Invalid CRC")] at its gate and hands
    no decoded field to the caller; [DistanceMeasurement.parse_response]
    does not fail on the mismatch but reports it, every result it returns
    having ["Checksum"] false next to the decoded fields: the status and
    the bytes at offsets 4 to 7 for a status byte other than ['v'], the
    status and the range for a ['v'] frame whose digit field is an integer
    literal other than zero. *)
Theorem C4_mismatch_aborts_decoding (f : bytes) (s : pystr) :
  shaped f ->
  utf8 (checksum_field f) = Some s ->
  map ord (checksum_field f) <> checksum_text f ->
  parse_range f = Raise (ValueError "Invalid CRC") /\
  returned (parse_range f) = None /\
  Protocol.check_crc f = Return false /\
  (forall p, Protocol.parse_response f = Return p ->
             Protocol.Checksum p = false /\
             mismatch_exposed checksum_flag (Protocol.parse_response f)) /\
  (slice 0 1 f <> lit "v" ->
   Protocol.parse_response f =
     Return {| Protocol.Status :=
                 if bytes_eqb (slice 0 1 f) (lit "R") then "Error" else "Unknown";
               Protocol.Measured_Range := Some (Protocol.ErrorCode (slice 4 8 f));
               Protocol.Checksum := false |}) /\
  (slice 0 1 f = lit "v" ->
   forall n, int_literal (map ord (slice 1 8 f)) n -> n <> 0 ->
   Protocol.parse_response f =
     Return {| Protocol.Status := "Valid";
               Protocol.Measured_Range := Some (Protocol.Range (div100 n));
               Protocol.Checksum := false |}).
Proof.
  intros H U M.
  assert (E : pystr_eqb s (checksum_text f) = false).
  { destruct (pystr_eqb s (checksum_text f)) eqn:E; [|reflexivity].
    apply pystr_eqb_eq in E. now apply (received_matches f s H U) in E. }
  assert (P : parse_range f = Raise (ValueError "Invalid CRC")).
  { rewrite parse_range_eq, check_crc_shaped, U, E by assumption. reflexivity. }
  assert (C : Protocol.check_crc f = Return false).
  { now rewrite protocol_check_crc_shaped, U, E by assumption. }
  split; [exact P|]. split; [now rewrite P|]. split; [exact C|].
  split; [|split].
  - intros p R. pose proof (parse_response_flag f false p H C R) as F.
    split; [exact F|]. rewrite R. split.
    + right. exists p. split; [reflexivity|]. unfold checksum_flag. now rewrite F.
    + exists p. reflexivity.
  - intros N. now apply parse_response_error_payload.
  - intros V n L N. rewrite (parse_response_valid f false H V C).
    rewrite (proj2 (field_value _ n) L). simpl.
    now rewrite (proj2 (Z.eqb_neq _ _) N).
Qed.

Lemma C4_mismatch_aborts_decoding_witness :
  let f := frame "v0108750DC" in
  (shaped f /\ utf8 (checksum_field f) = Some (text "DC") /\
   map ord (checksum_field f) <> checksum_text f) /\
  parse_range f = Raise (ValueError "Invalid CRC") /\
  returned (parse_range f) = None /\
  Protocol.check_crc f = Return false /\
  (forall p, Protocol.parse_response f = Return p ->
             Protocol.Checksum p = false /\
             mismatch_exposed checksum_flag (Protocol.parse_response f)) /\
  (slice 0 1 f <> lit "v" ->
   Protocol.parse_response f =
     Return {| Protocol.Status :=
                 if bytes_eqb (slice 0 1 f) (lit "R") then "Error" else "Unknown";
               Protocol.Measured_Range := Some (Protocol.ErrorCode (slice 4 8 f));
               Protocol.Checksum := false |}) /\
  (slice 0 1 f = lit "v" ->
   forall n, int_literal (map ord (slice 1 8 f)) n -> n <> 0 ->
   Protocol.parse_response f =
     Return {| Protocol.Status := "Valid";
               Protocol.Measured_Range := Some (Protocol.Range (div100 n));
               Protocol.Checksum := false |}).
Proof.
  cbv zeta.
  assert (H : shaped (frame "v0108750DC")) by (split; reflexivity).
  assert (U : utf8 (checksum_field (frame "v0108750DC")) = Some (text "DC"))
    by reflexivity.
  assert (M : map ord (checksum_field (frame "v0108750DC"))
              <> checksum_text (frame "v0108750DC")) by discriminate.
  split; [repeat split; assumption|].
  exact (C4_mismatch_aborts_decoding _ _ H U M).
Defined.

(** C4 as stated fails.  On the tampered frame [b'v0108750DC\r']
    [parse_range] tells of the mismatch and hands over nothing, while
    [parse_response] does meet the requirement there, with a false flag
    beside the fields.  On a frame whose checksum bytes are not text both
    decoders raise the decoding error: no mismatch is told and nothing is
    handed over. *)
Lemma C4_counterexample :
  let f := frame "v0108750DC" in
  let g := lit "v0108750" ++ [x80; x41; x0d] in
  (shaped f /\ map ord (checksum_field f) <> checksum_text f /\
   parse_range f = Raise (ValueError "Invalid CRC") /\
   told_of_mismatch no_flag (parse_range f) /\
   ~ handed_fields (parse_range f) /\
   ~ mismatch_exposed no_flag (parse_range f) /\
   Protocol.parse_response f =
     Return {| Protocol.Status := "Valid";
               Protocol.Measured_Range := Some (Protocol.Range (div100 108750));
               Protocol.Checksum := false |} /\
   mismatch_exposed checksum_flag (Protocol.parse_response f)) /\
  (shaped g /\ map ord (checksum_field g) <> checksum_text g /\
   parse_range g = Raise (UnicodeDecodeError "utf-8") /\
   Protocol.parse_response g = Raise (UnicodeDecodeError "utf-8") /\
   ~ mismatch_exposed no_flag (parse_range g) /\
   ~ mismatch_exposed checksum_flag (Protocol.parse_response g)).
Proof.
  cbv zeta.
  assert (Pf : parse_range (frame "v0108750DC") = Raise (ValueError "Invalid CRC"))
    by reflexivity.
  assert (Rf : Protocol.parse_response (frame "v0108750DC") =
               Return {| Protocol.Status := "Valid";
                         Protocol.Measured_Range :=
                           Some (Protocol.Range (div100 108750));
                         Protocol.Checksum := false |}) by reflexivity.
  assert (Pg : parse_range (lit "v0108750" ++ [x80; x41; x0d]) =
               Raise (UnicodeDecodeError "utf-8")) by reflexivity.
  assert (Rg : Protocol.parse_response (lit "v0108750" ++ [x80; x41; x0d]) =
               Raise (UnicodeDecodeError "utf-8")) by reflexivity.
  unfold mismatch_exposed, told_of_mismatch, handed_fields.
  rewrite Pf, Rf, Pg, Rg.
  split; [split; [|split; [|split; [|split; [|split; [|split; [|split]]]]]]
         |split; [|split; [|split; [|split; [|split]]]]].
  - split; reflexivity.
  - intros E. vm_compute in E. discriminate E.
  - reflexivity.
  - now left.
  - intros [a E]. discriminate E.
  - intros [_ [a E]]. discriminate E.
  - reflexivity.
  - split; [right|]; eexists; [split|]; reflexivity.
  - split; reflexivity.
  - intros E. vm_compute in E. discriminate E.
  - reflexivity.
  - reflexivity.
  - intros [_ [a E]]. discriminate E.
  - intros [_ [a E]]. discriminate E.
Qed.

(** C5.  [DistanceMeasurement.parse_response] on the Valid frame
    [b'v0000000C6\r'], whose digits encode zero, populates neither the
    range nor an error payload: ["Measured Range"] is [None].
    [VectronixRangeFinder.parse_range] returns the range 0.0 for the same
    frame. *)
Theorem C5_zero_range_lost :
  let f := frame "v0000000C6" in
  shaped f /\
  Protocol.parse_response f =
    Return {| Protocol.Status := "Valid";
              Protocol.Measured_Range := None;
              Protocol.Checksum := true |} /\
  parse_range f =
    Return {| range := Some (div100 0);
              status := Some (Member VALID);
              error := None |}.
Proof.
  cbv zeta. repeat split; reflexivity.
Qed.

(** C6.  [VectronixRangeFinder.parse_range] on the Error frame
    [b'R000E301BB\r'] raises: the payload is looked up in the dictionary
    that [response] has been rebound to, not in the frame.
    [DistanceMeasurement.parse_response] decodes the same frame as
    specified: status Error, no range, checksum evaluated, payload
    [b'E301'], the bytes at offsets 4 to 7. *)
Theorem C6_error_frame_raises :
  let f := frame "R000E301BB" in
  shaped f /\
  check_crc f = Return tt /\
  parse_range f = Raise SubscriptError /\
  Protocol.parse_response f =
    Return {| Protocol.Status := "Error";
              Protocol.Measured_Range := Some (Protocol.ErrorCode (slice 4 8 f));
              Protocol.Checksum := true |} /\
  slice 4 8 f = lit "E301".
Proof.
  cbv zeta. repeat split; reflexivity.
Qed.

(** C7, as amended.  On a frame of correct shape with status byte ['v']
    and a checksum that verifies, either decoder fails, with a
    [ValueError], if and only if the seven bytes of the digit field are not
    a base-ten integer literal: white space, an optional sign, decimal
    digits with at most one underscore between two of them, white space.
    Otherwise [parse_range] returns the literal's integer divided by 100 as
    the range, and so does [parse_response] when that integer is not zero.
    Seven decimal digits are such a literal, and its integer is the digits
    read as an unsigned decimal number. *)
Theorem C7_digit_field_decoded (f : bytes) :
  shaped f ->
  slice 0 1 f = lit "v" ->
  check_crc f = Return tt ->
  ((exists e, parse_range f = Raise e)
   <-> ~ exists n, int_literal (map ord (slice 1 8 f)) n) /\
  (forall e, parse_range f = Raise e -> is_ValueError e = true) /\
  (forall n, int_literal (map ord (slice 1 8 f)) n ->
             parse_range f =
               Return {| range := Some (div100 n);
                         status := Some (Member VALID);
                         error := None |}) /\
  ((exists e, Protocol.parse_response f = Raise e)
   <-> ~ exists n, int_literal (map ord (slice 1 8 f)) n) /\
  (forall e, Protocol.parse_response f = Raise e -> is_ValueError e = true) /\
  (forall n, int_literal (map ord (slice 1 8 f)) n -> n <> 0 ->
             Protocol.parse_response f =
               Return {| Protocol.Status := "Valid";
                         Protocol.Measured_Range := Some (Protocol.Range (div100 n));
                         Protocol.Checksum := true |}) /\
  (all_digits (slice 1 8 f) = true ->
   int_literal (map ord (slice 1 8 f)) (decimal (slice 1 8 f)) /\
   0 <= decimal (slice 1 8 f)).
Proof.
  intros H V C.
  pose proof (proj1 (check_crc_agree f H) C) as C'.
  rewrite (parse_range_valid f V C), (parse_response_valid f true H V C').
  pose proof (field_value (slice 1 8 f)) as FV.
  pose proof (field_refused (slice 1 8 f)) as FR.
  destruct (digits <- decode_ascii (slice 1 8 f) ;; int digits) as [m|x];
    cbn [bind].
  - pose proof (proj1 (FV m) eq_refl) as L.
    assert (U : forall n, int_literal (map ord (slice 1 8 f)) n -> n = m).
    { intros n Ln. apply FV in Ln. now injection Ln. }
    split; [|split; [|split; [|split; [|split; [|split]]]]].
    + split; [intros [e E]; discriminate E | intros N; exfalso; eauto].
    + intros e E. discriminate E.
    + intros n Ln. now rewrite (U n Ln).
    + split; [intros [e E]; discriminate E | intros N; exfalso; eauto].
    + intros e E. discriminate E.
    + intros n Ln N. rewrite <- (U n Ln).
      now rewrite (proj2 (Z.eqb_neq _ _) N).
    + intros D.
      assert (N : slice 1 8 f <> []) by (open_frame f H; discriminate).
      split; [now apply all_digits_literal|].
      pose proof (all_digits_literal _ D N) as Ld. apply U in Ld.
      unfold decimal.
      assert (B : forall (l : bytes) acc, all_digits l = true -> 0 <= acc ->
                  0 <= fold_left (fun acc b => 10 * acc + (ord b - 48)) l acc).
      { induction l as [|b l IH]; intros acc Dl A; [exact A|].
        simpl in Dl. apply andb_true_iff in Dl as [Hb Dl].
        apply is_digit_ord in Hb. apply IH; [exact Dl | lia]. }
      now apply B.
  - assert (N : ~ exists n, int_literal (map ord (slice 1 8 f)) n).
    { intros [n Ln]. apply FV in Ln. discriminate Ln. }
    split; [|split; [|split; [|split; [|split; [|split]]]]].
    + split; [intros _; exact N | intros _; eauto].
    + intros e [= <-]. now apply FR.
    + intros n Ln. exfalso. eauto.
    + split; [intros _; exact N | intros _; eauto].
    + intros e [= <-]. now apply FR.
    + intros n Ln. exfalso. eauto.
    + intros D. exfalso. apply N.
      assert (Ne : slice 1 8 f <> []) by (open_frame f H; discriminate).
      eexists. now apply all_digits_literal.
Qed.

Lemma C7_digit_field_decoded_witness :
  let f := frame "v+000001C2" in
  (shaped f /\ slice 0 1 f = lit "v" /\ check_crc f = Return tt) /\
  ((exists e, parse_range f = Raise e)
   <-> ~ exists n, int_literal (map ord (slice 1 8 f)) n) /\
  (forall e, parse_range f = Raise e -> is_ValueError e = true) /\
  (forall n, int_literal (map ord (slice 1 8 f)) n ->
             parse_range f =
               Return {| range := Some (div100 n);
                         status := Some (Member VALID);
                         error := None |}) /\
  ((exists e, Protocol.parse_response f = Raise e)
   <-> ~ exists n, int_literal (map ord (slice 1 8 f)) n) /\
  (forall e, Protocol.parse_response f = Raise e -> is_ValueError e = true) /\
  (forall n, int_literal (map ord (slice 1 8 f)) n -> n <> 0 ->
             Protocol.parse_response f =
               Return {| Protocol.Status := "Valid";
                         Protocol.Measured_Range := Some (Protocol.Range (div100 n));
                         Protocol.Checksum := true |}) /\
  (all_digits (slice 1 8 f) = true ->
   int_literal (map ord (slice 1 8 f)) (decimal (slice 1 8 f)) /\
   0 <= decimal (slice 1 8 f)).
Proof.
  cbv zeta.
  assert (H : shaped (frame "v+000001C2")) by (split; reflexivity).
  assert (V : slice 0 1 (frame "v+000001C2") = lit "v") by reflexivity.
  assert (C : check_crc (frame "v+000001C2") = Return tt) by reflexivity.
  split; [repeat split; assumption|].
  exact (C7_digit_field_decoded _ H V C).
Defined.

(** C7 as stated fails: the field [+000001] is not all digits and is
    decoded all the same, as 0.01 m, by both decoders; so decoding does not
    fail exactly when the field is not all digits. *)
Lemma C7_counterexample :
  let f := frame "v+000001C2" in
  shaped f /\ slice 0 1 f = lit "v" /\
  all_digits (slice 1 8 f) = false /\
  parse_range f =
    Return {| range := Some (div100 1);
              status := Some (Member VALID);
              error := None |} /\
  Protocol.parse_response f =
    Return {| Protocol.Status := "Valid";
              Protocol.Measured_Range := Some (Protocol.Range (div100 1));
              Protocol.Checksum := true |} /\
  ~ ((exists e, parse_range f = Raise e) <-> all_digits (slice 1 8 f) = false) /\
  ~ ((exists e, Protocol.parse_response f = Raise e) <->
     all_digits (slice 1 8 f) = false).
Proof.
  cbv zeta. repeat split; try reflexivity;
    intros [_ I]; destruct (I eq_refl) as [e E]; vm_compute in E; discriminate E.
Qed.

(** C8.  [send_command(Command.GET_RANGE)] writes exactly the five bytes
    [0x3E 'M' 'd' '1' 0x0D]; [DistanceMeasurement.range_request] is the same
    buffer. *)
Theorem C8_get_range_frame (sent : list bytes) :
  send_command GET_RANGE None sent =
    (Return tt, sent ++ [[x3e; "M"; "d"; "1"; x0d]%byte]) /\
  Protocol.range_request = Return [x3e; "M"; "d"; "1"; x0d]%byte.
Proof.
  split; reflexivity.
Qed.

(** C9.  When the first byte of the line that is not END is NACK, the
    reader raises [ValueError("Invalid command")] and has consumed the
    leading END bytes and the NACK, nothing after it. *)
Theorem C9_nack_rejected (pre rest : bytes) :
  Forall (eq x0d) pre ->
  read_response (pre ++ x21 :: rest) =
    (Raise (ValueError "Invalid command"), rest).
Proof.
  intros H. now rewrite read_response_skips_END, read_response_NACK.
Qed.

Lemma C9_nack_rejected_witness :
  Forall (eq x0d) [x0d; x0d] /\
  read_response ([x0d; x0d] ++ x21 :: lit ">v0108750D") =
    (Raise (ValueError "Invalid command"), lit ">v0108750D").
Proof.
  assert (H : Forall (eq x0d) [x0d; x0d]) by repeat constructor.
  split; [exact H|].
  exact (C9_nack_rejected [x0d; x0d] (lit ">v0108750D") H).
Defined.

(** C10.  Checksum verification decodes the two received bytes, the slice
    [response[-3:-1]], as UTF-8 before it compares: on a frame of correct
    shape whose bytes at offsets 8 and 9 are not valid text, both
    [check_crc] functions and [parse_range] raise [UnicodeDecodeError];
    none reports a mismatch. *)
Theorem C10_undecodable_checksum (f : bytes) :
  shaped f ->
  utf8 (checksum_field f) = None ->
  slice (-3) (-1) f = checksum_field f /\
  check_crc f = Raise (UnicodeDecodeError "utf-8") /\
  Protocol.check_crc f = Raise (UnicodeDecodeError "utf-8") /\
  parse_range f = Raise (UnicodeDecodeError "utf-8").
Proof.
  intros H U.
  assert (C : check_crc f = Raise (UnicodeDecodeError "utf-8"))
    by now rewrite check_crc_shaped, U.
  rewrite parse_range_eq, protocol_check_crc_shaped, U, C by assumption.
  repeat split. apply (checksum_received f H).
Qed.

Lemma C10_undecodable_checksum_witness :
  let f := lit "v0108750" ++ [x80; x41; x0d] in
  (shaped f /\ utf8 (checksum_field f) = None) /\
  slice (-3) (-1) f = checksum_field f /\
  check_crc f = Raise (UnicodeDecodeError "utf-8") /\
  Protocol.check_crc f = Raise (UnicodeDecodeError "utf-8") /\
  parse_range f = Raise (UnicodeDecodeError "utf-8").
Proof.
  cbv zeta.
  assert (H : shaped (lit "v0108750" ++ [x80; x41; x0d])) by (split; reflexivity).
  split; [split; [exact H | reflexivity]|].
  apply (C10_undecodable_checksum _ H). reflexivity.
Defined.

(** ** Sanity checks of [float] and [struct.pack] *)

Example pack_one :
  Builder.and_then (Builder.float 1) (fun x => Builder.Returns (Builder.pack_double x))
  = Builder.Returns [x3f; xf0; x00; x00; x00; x00; x00; x00].
Proof. vm_compute. reflexivity. Qed.

Example pack_minus_two :
  Builder.and_then (Builder.float (-2)) (fun x => Builder.Returns (Builder.pack_double x))
  = Builder.Returns [xc0; x00; x00; x00; x00; x00; x00; x00].
Proof. vm_compute. reflexivity. Qed.

Example pack_zero :
  Builder.and_then (Builder.float 0) (fun x => Builder.Returns (Builder.pack_double x))
  = Builder.Returns [x00; x00; x00; x00; x00; x00; x00; x00].
Proof. vm_compute. reflexivity. Qed.

Example pack_tie_to_even :
  Builder.and_then (Builder.float (2 ^ 53 + 1))
                   (fun x => Builder.Returns (Builder.pack_double x))
  = Builder.Returns [x43; x40; x00; x00; x00; x00; x00; x00].
Proof. vm_compute. reflexivity. Qed.

Example pack_largest :
  Builder.and_then (Builder.float (2 ^ 1024 - 2 ^ 970 - 1))
                   (fun x => Builder.Returns (Builder.pack_double x))
  = Builder.Returns [x7f; xef; xff; xff; xff; xff; xff; xff].
Proof. vm_compute. reflexivity. Qed.

Example float_overflow :
  Builder.float (2 ^ 1024 - 2 ^ 970)
  = Builder.Raises (Builder.OverflowError "int too large to convert to float").
Proof. vm_compute. reflexivity. Qed.

Example pack_count :
  Builder.pack [Builder.fmt_c; Builder.fmt_s 2] [Builder.Bytes (lit ">")]
  = Builder.Raises (Builder.struct_error "pack expected 2 items for packing (got 1)").
Proof. reflexivity. Qed.

Example pack_pads :
  Builder.pack [Builder.fmt_s 2] [Builder.Bytes (lit "A")]
  = Builder.Returns [x41; x00].
Proof. reflexivity. Qed.

(** The limit on [str] of an [int] sits between 4300 and 4301 digits. *)
Example str_limit_reached :
  digit_count (10 ^ 4300 - 1) = 4300 /\
  Builder.number_bytes (Builder.Int (10 ^ 4300)) = Raise digits_limit_exceeded.
Proof. split; vm_compute; reflexivity. Qed.

(** ** Further properties: the frame reader *)

Lemma ord_injective (a b : byte) : ord a = ord b -> a = b.
Proof.
  unfold ord. intros H. apply N2Z.inj in H.
  pose proof (Byte.of_to_N a) as Ha. rewrite H, Byte.of_to_N in Ha.
  congruence.
Qed.

Lemma ord_CR (b : byte) : (ord b =? 13) = true -> b = x0d.
Proof. intros H. apply Z.eqb_eq in H. now apply ord_injective. Qed.

(** After ACK the reader takes the next ten bytes and wants the last of
    them to be CR. *)
Lemma read_response_ACK (body rest : bytes) :
  List.length body = 10%nat ->
  read_response (x3e :: body ++ rest) =
    if bytes_eqb (skipn 9 body) [x0d]
    then (Return (x3e :: body), rest)
    else (Raise (ValueError "Invalid response format"), rest).
Proof.
  intros L. do 10 (destruct body as [|? body]; [discriminate L|]).
  destruct body; [|discriminate L].
  change (read_response (x3e :: [b; b0; b1; b2; b3; b4; b5; b6; b7; b8] ++ rest))
    with (if negb (ord b8 =? 13)
          then (@Raise bytes (ValueError "Invalid response format"), rest)
          else (Return [x3e; b; b0; b1; b2; b3; b4; b5; b6; b7; b8], rest)).
  simpl.
  destruct (ord b8 =? 13) eqn:E; simpl.
  - apply ord_CR in E. subst. reflexivity.
  - destruct (Byte.eqb b8 x0d) eqn:B; [|reflexivity].
    apply Byte.byte_dec_bl in B. subst. discriminate E.
Qed.

Lemma read_response_ACK_short (tail : bytes) :
  (List.length tail < 10)%nat ->
  read_response (x3e :: tail) =
    (Raise (ValueError "Invalid response format"), []).
Proof.
  intros L.
  do 10 (destruct tail as [|? tail]; [reflexivity|]).
  simpl in L. lia.
Qed.

Lemma read_response_kinds (line r rest : bytes) :
  read_response line = (Return r, rest) ->
  r = [] \/ (exists b, r = [b] /\ stray b) \/ framed r.
Proof.
  revert r rest. induction line as [|b line IH]; intros r rest H.
  - injection H as <- _. now left.
  - destruct (Byte.byte_eq_dec b x0d) as [->|N1]; [exact (IH _ _ H)|].
    destruct (Byte.byte_eq_dec b x21) as [->|N2]; [discriminate H|].
    destruct (Byte.byte_eq_dec b x3e) as [->|N3].
    + right. right.
      destruct (Nat.lt_ge_cases (List.length line) 10) as [S|G].
      * rewrite read_response_ACK_short in H by assumption. discriminate H.
      * rewrite <- (firstn_skipn 10 line) in H.
        assert (L : List.length (firstn 10 line) = 10%nat)
          by (rewrite length_firstn; lia).
        generalize dependent (firstn 10 line). intros body H L.
        rewrite read_response_ACK in H by assumption.
        destruct (bytes_eqb (skipn 9 body) [x0d]) eqn:E; [|discriminate H].
        injection H as <- _. apply bytes_eqb_eq in E.
        do 10 (destruct body as [|? body]; [discriminate L|]).
        destruct body; [|discriminate L].
        simpl in E. injection E as ->. repeat split.
    + right. left. exists b.
      simpl in H.
      destruct (Byte.eqb b x0d) eqn:E1; [apply Byte.byte_dec_bl in E1; contradiction|].
      destruct (Byte.eqb b x21) eqn:E2; [apply Byte.byte_dec_bl in E2; contradiction|].
      destruct (Byte.eqb b x3e) eqn:E3; [apply Byte.byte_dec_bl in E3; contradiction|].
      injection H as <- _. repeat split; assumption.
Qed.

(** X1.  Whatever [read_response] returns is of one of three kinds: the
    empty read of a silent line, one stray byte, or eleven bytes that start
    with ACK and end with CR. *)
Theorem read_response_returns (line r rest : bytes) :
  read_response line = (Return r, rest) ->
  r = [] \/ (exists b, r = [b] /\ stray b) \/ framed r.
Proof. apply read_response_kinds. Qed.

Lemma read_response_returns_witness :
  read_response (lit ">v0108750D" ++ [x0d]) =
    (Return (lit ">v0108750D" ++ [x0d]), []) /\
  (lit ">v0108750D" ++ [x0d] = [] \/
   (exists b, lit ">v0108750D" ++ [x0d] = [b] /\ stray b) \/
   framed (lit ">v0108750D" ++ [x0d])).
Proof.
  assert (H : read_response (lit ">v0108750D" ++ [x0d]) =
              (Return (lit ">v0108750D" ++ [x0d]), [])) by reflexivity.
  split; [exact H|].
  exact (read_response_returns _ _ _ H).
Defined.

(** X2.  Leading END bytes are skipped, and ACK followed by nine bytes and
    CR is returned as an eleven-byte response; the bytes after the CR stay
    on the line. *)
Theorem read_response_frames (pre body rest : bytes) :
  Forall (eq x0d) pre ->
  List.length body = 9%nat ->
  read_response (pre ++ x3e :: body ++ x0d :: rest) =
    (Return (x3e :: body ++ [x0d]), rest).
Proof.
  intros P L. rewrite read_response_skips_END by assumption.
  replace (body ++ x0d :: rest) with ((body ++ [x0d]) ++ rest)
    by now rewrite <- app_assoc.
  rewrite read_response_ACK by (rewrite length_app; simpl; lia).
  do 9 (destruct body as [|? body]; [discriminate L|]).
  destruct body; [reflexivity | discriminate L].
Qed.

Lemma read_response_frames_witness :
  (Forall (eq x0d) [x0d; x0d; x0d] /\ List.length (lit "v0108750D") = 9%nat) /\
  read_response ([x0d; x0d; x0d] ++ x3e :: lit "v0108750D" ++ x0d :: lit "!") =
    (Return (x3e :: lit "v0108750D" ++ [x0d]), lit "!").
Proof.
  assert (P : Forall (eq x0d) [x0d; x0d; x0d]) by repeat constructor.
  assert (L : List.length (lit "v0108750D") = 9%nat) by reflexivity.
  split; [split; assumption|].
  exact (read_response_frames _ _ (lit "!") P L).
Defined.

(** X3.  When fewer than ten bytes follow the ACK, the reader raises
    [ValueError("Invalid response format")] and the line is left empty. *)
Theorem read_response_short_line (pre tail : bytes) :
  Forall (eq x0d) pre ->
  (List.length tail < 10)%nat ->
  read_response (pre ++ x3e :: tail) =
    (Raise (ValueError "Invalid response format"), []).
Proof.
  intros P L. rewrite read_response_skips_END by assumption.
  now apply read_response_ACK_short.
Qed.

Lemma read_response_short_line_witness :
  (Forall (eq x0d) [x0d] /\ (List.length (lit "v01087") < 10)%nat) /\
  read_response ([x0d] ++ x3e :: lit "v01087") =
    (Raise (ValueError "Invalid response format"), []).
Proof.
  assert (P : Forall (eq x0d) [x0d]) by repeat constructor.
  assert (L : (List.length (lit "v01087") < 10)%nat) by (simpl; lia).
  split; [split; assumption|].
  exact (read_response_short_line _ _ P L).
Defined.

(** X4.  A response line in the documented layout, status, seven digits,
    checksum, CR, whose checksum verifies, is not accepted after ACK: the
    reader stops one byte early, finds the second checksum character where
    it wants CR, raises, and leaves the CR on the line. *)
Theorem read_response_rejects_documented_line (f rest : bytes) :
  shaped f ->
  check_crc f = Return tt ->
  read_response (x3e :: f ++ rest) =
    (Raise (ValueError "Invalid response format"), x0d :: rest).
Proof.
  intros H C. rewrite (check_crc_shaped f H) in C.
  destruct (utf8 (checksum_field f)) as [s|] eqn:U; [|discriminate C].
  destruct (pystr_eqb s (checksum_text f)) eqn:E; [|discriminate C].
  apply pystr_eqb_eq in E. apply (received_matches f s H U) in E.
  destruct (checksum_text_ascii f) as (x & y & T & _ & Hy).
  rewrite T in E. clear C U T.
  open_frame f H.
  change (checksum_field [b0; b1; b2; b3; b4; b5; b6; b7; b8; b9; x0d])
    with [b8; b9] in E.
  simpl in E. injection E as _ E9.
  change (x3e :: [b0; b1; b2; b3; b4; b5; b6; b7; b8; b9; x0d] ++ rest)
    with (x3e :: [b0; b1; b2; b3; b4; b5; b6; b7; b8; b9] ++ x0d :: rest).
  rewrite read_response_ACK by reflexivity.
  rewrite bytes_eqb_neq; [reflexivity|].
  intros [= ->]. vm_compute in E9. subst y. lia.
Qed.

Lemma read_response_rejects_documented_line_witness :
  (shaped (frame "v0108750DB") /\ check_crc (frame "v0108750DB") = Return tt) /\
  read_response (x3e :: frame "v0108750DB" ++ []) =
    (Raise (ValueError "Invalid response format"), [x0d]).
Proof.
  assert (H : shaped (frame "v0108750DB")) by (split; reflexivity).
  assert (C : check_crc (frame "v0108750DB") = Return tt) by reflexivity.
  split; [split; assumption|].
  exact (read_response_rejects_documented_line _ [] H C).
Defined.

(** ** Further properties: reader and decoder in sequence *)

Lemma framed_shaped (r : bytes) : framed r -> shaped r.
Proof. intros (L & _ & E). now split. Qed.

Lemma framed_status (r : bytes) : framed r -> slice 0 1 r = [x3e].
Proof.
  intros (L & A & _).
  do 11 (destruct r as [|? r]; [discriminate L|]).
  destruct r; [|discriminate L].
  simpl in A. injection A as ->. reflexivity.
Qed.

Lemma calculated_two_chars (data : bytes) :
  exists x y, format_02X (Z.land (sum data) 255) = [x; y].
Proof.
  rewrite land_255, format_02X_byte by (apply Z.mod_pos_bound; lia).
  eauto.
Qed.

(** A response of at most one byte has no checksum characters at all. *)
Lemma check_crc_tiny (r : bytes) :
  (List.length r <= 1)%nat -> check_crc r = Raise (ValueError "Invalid CRC").
Proof.
  intros L. unfold check_crc.
  destruct (calculated_two_chars (slice 0 8 r)) as (x & y & ->).
  destruct r as [|b [|? r]]; [reflexivity | reflexivity | simpl in L; lia].
Qed.

(** X5.  No response that [read_response] returns is decoded by
    [parse_range]: the empty read and a stray byte fail the checksum, and
    an eleven-byte response carries the ACK where the status byte is
    looked for. *)
Theorem read_then_parse_range_raises (line r rest : bytes) :
  read_response line = (Return r, rest) ->
  exists e, parse_range r = Raise e.
Proof.
  intros H. apply read_response_kinds in H as [->|[(b & -> & _)|F]].
  - eexists. reflexivity.
  - rewrite parse_range_eq, check_crc_tiny by (simpl; lia). eexists. reflexivity.
  - rewrite parse_range_eq, (framed_status r F).
    destruct (check_crc r); eexists; reflexivity.
Qed.

Lemma read_then_parse_range_raises_witness :
  read_response (lit ">v0108750D" ++ [x0d]) =
    (Return (lit ">v0108750D" ++ [x0d]), []) /\
  exists e, parse_range (lit ">v0108750D" ++ [x0d]) = Raise e.
Proof.
  assert (H : read_response (lit ">v0108750D" ++ [x0d]) =
              (Return (lit ">v0108750D" ++ [x0d]), [])) by reflexivity.
  split; [exact H|].
  exact (read_then_parse_range_raises _ _ _ H).
Defined.

(** X6.  [DistanceMeasurement.parse_response] never reports a response
    returned by [read_response] as Valid or Error: it raises, or the status
    is "Unknown" and the payload is the bytes at offsets 4 to 7. *)
Theorem read_then_parse_response_unknown (line r rest : bytes) :
  read_response line = (Return r, rest) ->
  (exists e, Protocol.parse_response r = Raise e) \/
  (exists crc,
     Protocol.parse_response r =
       Return {| Protocol.Status := "Unknown";
                 Protocol.Measured_Range := Some (Protocol.ErrorCode (slice 4 8 r));
                 Protocol.Checksum := crc |}).
Proof.
  intros H. apply read_response_kinds in H as [->|[(b & -> & _)|F]].
  - left. eexists. reflexivity.
  - left. eexists. reflexivity.
  - rewrite (parse_response_eq r (framed_shaped r F)), (framed_status r F).
    change (bytes_eqb [x3e] (lit "v")) with false.
    change (bytes_eqb [x3e] (lit "R")) with false. cbv iota.
    destruct (Protocol.check_crc r) as [crc|e]; [right|left]; eexists; reflexivity.
Qed.

Lemma read_then_parse_response_unknown_witness :
  read_response (lit ">000E3015E" ++ [x0d]) =
    (Return (lit ">000E3015E" ++ [x0d]), []) /\
  ((exists e, Protocol.parse_response (lit ">000E3015E" ++ [x0d]) = Raise e) \/
   (exists crc,
      Protocol.parse_response (lit ">000E3015E" ++ [x0d]) =
        Return {| Protocol.Status := "Unknown";
                  Protocol.Measured_Range :=
                    Some (Protocol.ErrorCode
                            (slice 4 8 (lit ">000E3015E" ++ [x0d])));
                  Protocol.Checksum := crc |})).
Proof.
  assert (H : read_response (lit ">000E3015E" ++ [x0d]) =
              (Return (lit ">000E3015E" ++ [x0d]), [])) by reflexivity.
  split; [exact H|].
  exact (read_then_parse_response_unknown _ _ _ H).
Defined.

(** ** Further properties: checksum verification *)

Lemma utf8_ascii_pair (a b : byte) :
  ord a < 128 -> ord b < 128 -> utf8 [a; b] = Some [ord a; ord b].
Proof.
  intros Ha Hb. rewrite utf8_pair.
  now rewrite (proj2 (Z.ltb_lt _ _) Ha), (proj2 (Z.ltb_lt _ _) Hb).
Qed.

Lemma check_crc_verdict (f : bytes) :
  shaped f ->
  (check_crc f = Return tt <-> map ord (checksum_field f) = checksum_text f).
Proof.
  intros H. rewrite (check_crc_shaped f H). split.
  - destruct (utf8 (checksum_field f)) as [s|] eqn:U; [|discriminate].
    destruct (pystr_eqb s (checksum_text f)) eqn:E; [|discriminate].
    intros _. apply pystr_eqb_eq in E. now apply (received_matches f s H U).
  - intros M.
    destruct (checksum_text_ascii f) as (x & y & T & Hx & Hy).
    assert (U : utf8 (checksum_field f) = Some (checksum_text f)).
    { rewrite T in M |- *. clear T. open_frame f H.
      change (checksum_field [b0; b1; b2; b3; b4; b5; b6; b7; b8; b9; x0d])
        with [b8; b9] in *.
      simpl in M. injection M as <- <-. apply utf8_ascii_pair; lia. }
    rewrite U.
    now rewrite (proj2 (pystr_eqb_eq _ _) eq_refl).
Qed.

(** X7.  On a frame of correct shape, [check_crc] passes exactly when the
    bytes at offsets 8 and 9 are the two upper-case hexadecimal characters
    of the sum of the first eight bytes modulo 256. *)
Theorem check_crc_passes_iff (f : bytes) :
  shaped f ->
  (check_crc f = Return tt <-> map ord (checksum_field f) = checksum_text f).
Proof. apply check_crc_verdict. Qed.

Lemma check_crc_passes_iff_witness :
  shaped (frame "v0222200CE") /\
  (check_crc (frame "v0222200CE") = Return tt <->
   map ord (checksum_field (frame "v0222200CE")) = checksum_text (frame "v0222200CE")).
Proof.
  assert (H : shaped (frame "v0222200CE")) by (split; reflexivity).
  split; [exact H|].
  exact (check_crc_passes_iff _ H).
Defined.

(** X8.  The two [check_crc] functions agree on every input: where the
    one of [VectronixRangeFinder] returns, the one of [DistanceMeasurement]
    answers [True]; where the first raises ["Invalid CRC"], the second
    answers [False]; a decoding error is raised by both. *)
Theorem check_crc_twins (r : bytes) :
  Protocol.check_crc r =
    match check_crc r with
    | Return _ => Return true
    | Raise (ValueError _) => Return false
    | Raise e => Raise e
    end.
Proof.
  unfold Protocol.check_crc, check_crc.
  destruct (decode_utf8 (slice (-3) (-1) r)) as [s|e] eqn:D; simpl.
  - rewrite pystr_eqb_sym.
    now destruct (pystr_eqb s (format_02X (Z.land (sum (slice 0 8 r)) 255))).
  - unfold decode_utf8 in D. destruct (utf8 (slice (-3) (-1) r)); [discriminate|].
    now injection D as <-.
Qed.

Lemma sum_from (data : bytes) (s : Z) :
  fold_left (fun s b => s + ord b) data s = s + sum data.
Proof.
  unfold sum. revert s. induction data as [|b data IH]; intros s; simpl.
  - lia.
  - rewrite IH, (IH (ord b)). lia.
Qed.

Lemma sum_cons (b : byte) (data : bytes) : sum (b :: data) = ord b + sum data.
Proof. unfold sum at 1. simpl. now rewrite sum_from. Qed.

Lemma sum_app (a b : bytes) : sum (a ++ b) = sum a + sum b.
Proof.
  induction a as [|x a IH]; simpl.
  - reflexivity.
  - rewrite !sum_cons, IH. lia.
Qed.

Lemma sum_permutation (a b : bytes) : Permutation a b -> sum a = sum b.
Proof.
  induction 1; rewrite ?sum_cons; lia.
Qed.

Lemma hex_char_inj (d d' : Z) :
  0 <= d < 16 -> 0 <= d' < 16 -> hex_char d = hex_char d' -> d = d'.
Proof.
  unfold hex_char. intros H H'.
  destruct (d <? 10) eqn:E; destruct (d' <? 10) eqn:E';
    rewrite ?Z.ltb_lt, ?Z.ltb_ge in *; lia.
Qed.

(** The two characters determine the sum modulo 256. *)
Lemma checksum_text_inj (f g : bytes) :
  checksum_text f = checksum_text g ->
  sum (firstn 8 f) mod 256 = sum (firstn 8 g) mod 256.
Proof.
  unfold checksum_text.
  pose proof (Z.mod_pos_bound (sum (firstn 8 f)) 256 eq_refl).
  pose proof (Z.mod_pos_bound (sum (firstn 8 g)) 256 eq_refl).
  set (c := sum (firstn 8 f) mod 256) in *.
  set (c' := sum (firstn 8 g) mod 256) in *.
  intros [= Hq Hr].
  apply hex_char_inj in Hq; [|split; [apply Z.div_pos | apply Z.div_lt_upper_bound]; lia ..].
  apply hex_char_inj in Hr; [|apply Z.mod_pos_bound; lia ..].
  rewrite (Z.div_mod c 16), (Z.div_mod c' 16) by lia. congruence.
Qed.

Lemma data_and_tail (data tail : bytes) :
  List.length data = 8%nat ->
  firstn 8 (data ++ tail) = data /\ skipn 8 (data ++ tail) = tail.
Proof.
  intros L. split.
  - rewrite firstn_app, L, Nat.sub_diag, firstn_all2 by lia.
    simpl. apply app_nil_r.
  - rewrite skipn_app, L, Nat.sub_diag, skipn_all2 by lia. reflexivity.
Qed.

Lemma shaped_data_tail (data tail : bytes) :
  List.length data = 8%nat ->
  (shaped (data ++ tail) <->
   List.length tail = 3%nat /\ nth_error tail 2 = Some x0d).
Proof.
  intros L. unfold shaped.
  rewrite length_app, L.
  split; intros [A B]; (split; [lia|]).
  - rewrite nth_error_app2 in B by lia. now rewrite L in B.
  - rewrite nth_error_app2 by lia. now rewrite L.
Qed.

(** When a frame verifies, its checksum characters are text and decode to
    the computed checksum. *)
Lemma received_when_verified (f : bytes) :
  shaped f -> check_crc f = Return tt ->
  utf8 (checksum_field f) = Some (checksum_text f).
Proof.
  intros H C. rewrite (check_crc_shaped f H) in C.
  destruct (utf8 (checksum_field f)) as [s|]; [|discriminate C].
  destruct (pystr_eqb s (checksum_text f)) eqn:E; [|discriminate C].
  apply pystr_eqb_eq in E. now subst.
Qed.

(** X9.  The checksum catches every corruption of a single one of the
    eight summed bytes: if a frame verifies, the frame that differs from it
    in exactly one of those bytes raises ["Invalid CRC"]. *)
Theorem check_crc_detects_single_byte (pre post tail : bytes) (b b' : byte) :
  List.length (pre ++ b :: post) = 8%nat ->
  shaped ((pre ++ b :: post) ++ tail) ->
  b <> b' ->
  check_crc ((pre ++ b :: post) ++ tail) = Return tt ->
  check_crc ((pre ++ b' :: post) ++ tail) = Raise (ValueError "Invalid CRC").
Proof.
  intros L H N C.
  assert (L' : List.length (pre ++ b' :: post) = 8%nat)
    by (rewrite length_app in *; simpl in *; lia).
  assert (H' : shaped ((pre ++ b' :: post) ++ tail))
    by (apply shaped_data_tail; [|apply (shaped_data_tail _ _ L)]; assumption).
  pose proof (received_when_verified _ H C) as U.
  rewrite (check_crc_shaped _ H').
  unfold checksum_field in *.
  rewrite (proj2 (data_and_tail _ tail L)) in U.
  rewrite (proj2 (data_and_tail _ tail L')), U.
  destruct (pystr_eqb _ _) eqn:E; [|reflexivity].
  apply pystr_eqb_eq, checksum_text_inj in E.
  rewrite (proj1 (data_and_tail _ tail L)), (proj1 (data_and_tail _ tail L')) in E.
  rewrite !sum_app, !sum_cons in E.
  pose proof (ord_bounds b). pose proof (ord_bounds b').
  assert (ord b <> ord b') by (intros O; apply N, ord_injective, O).
  exfalso. revert E.
  generalize (sum pre) (sum post). intros x y.
  Z.to_euclidean_division_equations. lia.
Qed.

Lemma check_crc_detects_single_byte_witness :
  (List.length (lit "v01" ++ "0"%byte :: lit "8750") = 8%nat /\
   shaped ((lit "v01" ++ "0"%byte :: lit "8750") ++ lit "DB" ++ [x0d]) /\
   "0"%byte <> "1"%byte /\
   check_crc ((lit "v01" ++ "0"%byte :: lit "8750") ++ lit "DB" ++ [x0d])
     = Return tt) /\
  check_crc ((lit "v01" ++ "1"%byte :: lit "8750") ++ lit "DB" ++ [x0d])
    = Raise (ValueError "Invalid CRC").
Proof.
  assert (L : List.length (lit "v01" ++ "0"%byte :: lit "8750") = 8%nat)
    by reflexivity.
  assert (H : shaped ((lit "v01" ++ "0"%byte :: lit "8750") ++ lit "DB" ++ [x0d]))
    by (split; reflexivity).
  assert (N : "0"%byte <> "1"%byte) by discriminate.
  assert (C : check_crc ((lit "v01" ++ "0"%byte :: lit "8750") ++ lit "DB" ++ [x0d])
              = Return tt) by reflexivity.
  split; [repeat split; assumption|].
  exact (check_crc_detects_single_byte _ _ _ _ _ L H N C).
Defined.

(** ** Further properties: [parse_range] *)

(** A frame of correct shape with status ['v'], a checksum that verifies
    and seven decimal digits decodes to those digits over 100. *)
Lemma parse_range_digits (f : bytes) :
  shaped f -> slice 0 1 f = lit "v" -> check_crc f = Return tt ->
  all_digits (slice 1 8 f) = true ->
  parse_range f =
    Return {| range := Some (div100 (decimal (slice 1 8 f)));
              status := Some (Member VALID);
              error := None |}.
Proof.
  intros H V C D.
  assert (slice 1 8 f <> []) by (open_frame f H; discriminate).
  rewrite parse_range_eq, C, V, bytes_eqb_refl. simpl.
  rewrite decode_ascii_digits by assumption. simpl.
  now rewrite int_all_digits by assumption.
Qed.

Lemma slices_of_shaped (f : bytes) :
  shaped f ->
  slice 0 1 f = firstn 1 f /\ slice 1 8 f = skipn 1 (firstn 8 f).
Proof. intros H. open_frame f H. split; reflexivity. Qed.

Lemma all_digits_permutation (a b : bytes) :
  Permutation a b -> all_digits a = true -> all_digits b = true.
Proof.
  unfold all_digits. rewrite !forallb_forall. intros P H x Hx.
  apply H. eapply Permutation_in; [symmetry|]; eassumption.
Qed.

(** X10.  The checksum is blind to the order of the summed bytes: when a
    Valid frame verifies, the frame with its seven digits rearranged
    verifies too, and [parse_range] returns the rearranged number as the
    range. *)
Theorem parse_range_accepts_rearranged_digits (digits digits' tail : bytes) :
  Permutation digits digits' ->
  List.length digits = 7%nat ->
  all_digits digits = true ->
  shaped (("v"%byte :: digits) ++ tail) ->
  check_crc (("v"%byte :: digits) ++ tail) = Return tt ->
  parse_range (("v"%byte :: digits') ++ tail) =
    Return {| range := Some (div100 (decimal digits'));
              status := Some (Member VALID);
              error := None |}.
Proof.
  intros P L D H C.
  assert (L' : List.length digits' = 7%nat)
    by now rewrite <- (Permutation_length P).
  assert (L8 : List.length ("v"%byte :: digits) = 8%nat) by (simpl; lia).
  assert (L8' : List.length ("v"%byte :: digits') = 8%nat) by (simpl; lia).
  assert (H' : shaped (("v"%byte :: digits') ++ tail))
    by (apply shaped_data_tail; [|apply (shaped_data_tail _ _ L8)]; assumption).
  assert (S : slice 1 8 (("v"%byte :: digits') ++ tail) = digits').
  { rewrite (proj2 (slices_of_shaped _ H')).
    now rewrite (proj1 (data_and_tail _ tail L8')). }
  assert (V : slice 0 1 (("v"%byte :: digits') ++ tail) = lit "v").
  { rewrite (proj1 (slices_of_shaped _ H')). reflexivity. }
  assert (C' : check_crc (("v"%byte :: digits') ++ tail) = Return tt).
  { apply (check_crc_verdict _ H'). apply (check_crc_verdict _ H) in C.
    unfold checksum_field, checksum_text in *.
    rewrite (proj1 (data_and_tail _ tail L8)), (proj2 (data_and_tail _ tail L8)) in C.
    rewrite (proj1 (data_and_tail _ tail L8')), (proj2 (data_and_tail _ tail L8')).
    rewrite sum_cons in *. now rewrite <- (sum_permutation _ _ P). }
  assert (D' : all_digits (slice 1 8 (("v"%byte :: digits') ++ tail)) = true)
    by (rewrite S; now apply (all_digits_permutation digits)).
  rewrite (parse_range_digits _ H' V C' D'), S. reflexivity.
Qed.

Lemma parse_range_accepts_rearranged_digits_witness :
  (Permutation (lit "0108750") (lit "1008750") /\
   List.length (lit "0108750") = 7%nat /\
   all_digits (lit "0108750") = true /\
   shaped (("v"%byte :: lit "0108750") ++ lit "DB" ++ [x0d]) /\
   check_crc (("v"%byte :: lit "0108750") ++ lit "DB" ++ [x0d]) = Return tt) /\
  parse_range (("v"%byte :: lit "1008750") ++ lit "DB" ++ [x0d]) =
    Return {| range := Some (div100 (decimal (lit "1008750")));
              status := Some (Member VALID);
              error := None |}.
Proof.
  assert (P : Permutation (lit "0108750") (lit "1008750"))
    by apply perm_swap.
  assert (L : List.length (lit "0108750") = 7%nat) by reflexivity.
  assert (D : all_digits (lit "0108750") = true) by reflexivity.
  assert (H : shaped (("v"%byte :: lit "0108750") ++ lit "DB" ++ [x0d]))
    by (split; reflexivity).
  assert (C : check_crc (("v"%byte :: lit "0108750") ++ lit "DB" ++ [x0d])
              = Return tt) by reflexivity.
  split; [repeat split; assumption|].
  exact (parse_range_accepts_rearranged_digits _ _ _ P L D H C).
Defined.

(** X11.  A response of fewer than three bytes, the empty one included,
    never verifies: [check_crc] raises, and so does [parse_range], with
    the same error. *)
Theorem check_crc_short_input (r : bytes) :
  (List.length r <= 2)%nat ->
  exists e, check_crc r = Raise e /\ parse_range r = Raise e.
Proof.
  intros L.
  assert (E : exists e, check_crc r = Raise e).
  { destruct r as [|a [|b [|c r]]].
    - rewrite check_crc_tiny by (simpl; lia). eauto.
    - rewrite check_crc_tiny by (simpl; lia). eauto.
    - unfold check_crc.
      destruct (calculated_two_chars (slice 0 8 [a; b])) as (x & y & ->).
      change (slice (-3) (-1) [a; b]) with [a].
      unfold decode_utf8. simpl.
      destruct (ord a <? 128); simpl; [rewrite andb_false_r|]; simpl; eauto.
    - simpl in L. lia. }
  destruct E as [e E]. exists e. split; [exact E|].
  now rewrite parse_range_eq, E.
Qed.

Lemma check_crc_short_input_witness :
  (List.length (@nil byte) <= 2)%nat /\
  exists e, check_crc [] = Raise e /\ parse_range [] = Raise e.
Proof.
  assert (L : (List.length (@nil byte) <= 2)%nat) by (simpl; lia).
  split; [exact L|].
  exact (check_crc_short_input [] L).
Defined.

(** X12.  [parse_range] does not look at the byte at offset 10: it decodes
    an eleven-byte input the same whatever its last byte is, CR or not. *)
Theorem parse_range_ignores_terminator (body : bytes) (x y : byte) :
  List.length body = 10%nat ->
  parse_range (body ++ [x]) = parse_range (body ++ [y]).
Proof.
  intros L. do 10 (destruct body as [|? body]; [discriminate L|]).
  destruct body; [|discriminate L].
  rewrite !parse_range_eq. reflexivity.
Qed.

Lemma parse_range_ignores_terminator_witness :
  List.length (lit "v0108750DB") = 10%nat /\
  parse_range (lit "v0108750DB" ++ [x0d]) = parse_range (lit "v0108750DB" ++ ["!"%byte]).
Proof.
  assert (L : List.length (lit "v0108750DB") = 10%nat) by reflexivity.
  split; [exact L|].
  exact (parse_range_ignores_terminator _ x0d "!"%byte L).
Defined.

Lemma decimal_bound (field : bytes) (acc : Z) :
  all_digits field = true -> 0 <= acc ->
  0 <= fold_left (fun acc b => 10 * acc + (ord b - 48)) field acc
    < (acc + 1) * 10 ^ Z.of_nat (List.length field).
Proof.
  revert acc. induction field as [|b field IH]; intros acc D A.
  - simpl. lia.
  - simpl in D. apply andb_true_iff in D as [Hb D].
    apply is_digit_ord in Hb.
    cbn [fold_left List.length]. rewrite Nat2Z.inj_succ, Z.pow_succ_r by lia.
    specialize (IH (10 * acc + (ord b - 48)) D ltac:(lia)).
    split; [lia|]. eapply Z.lt_le_trans; [apply IH|].
    assert (0 < 10 ^ Z.of_nat (List.length field)) by (apply Z.pow_pos_nonneg; lia).
    nia.
Qed.

(** X13.  Whenever [parse_range] returns for a frame of correct shape whose
    digit field is seven decimal digits, the range is a whole number of
    centimetres between 0 and 9999999, over 100: from 0.00 to 99999.99. *)
Theorem parse_range_bounds (f : bytes) (r : Response) :
  shaped f ->
  all_digits (slice 1 8 f) = true ->
  parse_range f = Return r ->
  exists n, range r = Some (div100 n) /\ 0 <= n <= 9999999.
Proof.
  intros H D P.
  assert (L : List.length (slice 1 8 f) = 7%nat) by (open_frame f H; reflexivity).
  assert (N : slice 1 8 f <> []) by (intros E; rewrite E in L; discriminate L).
  rewrite parse_range_eq in P.
  destruct (check_crc f); simpl in P; [|discriminate P].
  destruct (bytes_eqb (slice 0 1 f) (lit "v")); [|discriminate P].
  rewrite decode_ascii_digits in P by assumption. simpl in P.
  rewrite int_all_digits in P by assumption. simpl in P.
  injection P as <-. exists (decimal (slice 1 8 f)). split; [reflexivity|].
  pose proof (decimal_bound (slice 1 8 f) 0 D ltac:(lia)) as B.
  rewrite L in B. unfold decimal. change (10 ^ Z.of_nat 7) with 10000000 in B. lia.
Qed.

Lemma parse_range_bounds_witness :
  (shaped (frame "v0108750DB") /\
   all_digits (slice 1 8 (frame "v0108750DB")) = true /\
   parse_range (frame "v0108750DB") =
     Return {| range := Some (div100 108750);
               status := Some (Member VALID);
               error := None |}) /\
  exists n, Some (div100 108750) = Some (div100 n) /\ 0 <= n <= 9999999.
Proof.
  assert (H : shaped (frame "v0108750DB")) by (split; reflexivity).
  assert (D : all_digits (slice 1 8 (frame "v0108750DB")) = true) by reflexivity.
  assert (P : parse_range (frame "v0108750DB") =
              Return {| range := Some (div100 108750);
                        status := Some (Member VALID);
                        error := None |}) by reflexivity.
  split; [repeat split; assumption|].
  exact (parse_range_bounds _ _ H D P).
Defined.

(** X14.  A digit field made of a minus sign and six decimal digits is
    accepted: on such a Valid frame whose checksum verifies, [parse_range]
    returns the negated number over 100, a range that is not positive. *)
Theorem parse_range_negative (f digits : bytes) :
  shaped f ->
  slice 0 1 f = lit "v" ->
  check_crc f = Return tt ->
  slice 1 8 f = "-"%byte :: digits ->
  all_digits digits = true ->
  parse_range f =
    Return {| range := Some (div100 (- decimal digits));
              status := Some (Member VALID);
              error := None |} /\
  - decimal digits <= 0.
Proof.
  intros H V C F D.
  assert (N : digits <> []).
  { intros ->. open_frame f H. discriminate F. }
  split.
  - rewrite parse_range_eq, C, V, bytes_eqb_refl, F. simpl.
    assert (A : decode_ascii ("-"%byte :: digits) =
                Return (45 :: map ord digits)).
    { unfold decode_ascii. cbn [forallb map].
      change (ord "-"%byte <? 128) with true. cbn [andb].
      pose proof (decode_ascii_digits digits D) as E. unfold decode_ascii in E.
      destruct (forallb (fun x => ord x <? 128) digits); [reflexivity|discriminate E]. }
    rewrite A. simpl.
    now rewrite (proj2 (int_signed_digits digits D N)).
  - pose proof (decimal_bound digits 0 D ltac:(lia)). unfold decimal. lia.
Qed.

Lemma parse_range_negative_witness :
  (shaped (frame "v-000150C9") /\
   slice 0 1 (frame "v-000150C9") = lit "v" /\
   check_crc (frame "v-000150C9") = Return tt /\
   slice 1 8 (frame "v-000150C9") = "-"%byte :: lit "000150" /\
   all_digits (lit "000150") = true) /\
  parse_range (frame "v-000150C9") =
    Return {| range := Some (div100 (- decimal (lit "000150")));
              status := Some (Member VALID);
              error := None |} /\
  - decimal (lit "000150") <= 0.
Proof.
  assert (H : shaped (frame "v-000150C9")) by (split; reflexivity).
  assert (V : slice 0 1 (frame "v-000150C9") = lit "v") by reflexivity.
  assert (C : check_crc (frame "v-000150C9") = Return tt) by reflexivity.
  assert (F : slice 1 8 (frame "v-000150C9") = "-"%byte :: lit "000150")
    by reflexivity.
  assert (D : all_digits (lit "000150") = true) by reflexivity.
  split; [repeat split; assumption|].
  exact (parse_range_negative _ _ H V C F D).
Defined.

(** X15.  [parse_range] returns a result only for a frame whose first byte
    is ['v']; the result then has status [VALID], a range and no error
    payload.  No input makes it return an error payload. *)
Theorem parse_range_returns_only_valid (f : bytes) (r : Response) :
  parse_range f = Return r ->
  slice 0 1 f = lit "v" /\
  status r = Some (Member VALID) /\ error r = None /\
  exists n, range r = Some (div100 n).
Proof. apply parse_range_returns. Qed.

Lemma parse_range_returns_only_valid_witness :
  parse_range (frame "v0222200CE") =
    Return {| range := Some (div100 222200);
              status := Some (Member VALID);
              error := None |} /\
  slice 0 1 (frame "v0222200CE") = lit "v" /\
  Some (Member VALID) = Some (Member VALID) /\ @None bytes = None /\
  exists n, Some (div100 222200) = Some (div100 n).
Proof.
  assert (P : parse_range (frame "v0222200CE") =
              Return {| range := Some (div100 222200);
                        status := Some (Member VALID);
                        error := None |}) by reflexivity.
  split; [exact P|].
  exact (parse_range_returns_only_valid _ _ P).
Defined.

(** ** Further properties: [DistanceMeasurement.parse_response] *)

Lemma well_shaped_sound (f : bytes) :
  Protocol.well_shaped f = Return tt -> shaped f.
Proof.
  unfold Protocol.well_shaped. intros W.
  destruct (len f =? 11) eqn:E; simpl in W; [|discriminate W].
  apply Z.eqb_eq in E. unfold len in E.
  assert (L : List.length f = 11%nat) by lia. clear E.
  do 11 (destruct f as [|? f]; [discriminate L|]).
  destruct f; [|discriminate L].
  change (index [b; b0; b1; b2; b3; b4; b5; b6; b7; b8; b9] (-1))
    with (Some b9) in W. cbv beta iota in W.
  destruct (ord b9 =? 13) eqn:O; simpl in W; [|discriminate W].
  apply ord_CR in O. subst. split; reflexivity.
Qed.

Lemma well_shaped_fails (f : bytes) :
  ~ shaped f ->
  Protocol.well_shaped f = Raise (ValueError "Invalid response format").
Proof.
  intros N. unfold Protocol.well_shaped.
  destruct (len f =? 11) eqn:E; simpl; [|reflexivity].
  apply Z.eqb_eq in E. unfold len in E.
  assert (L : List.length f = 11%nat) by lia. clear E.
  do 11 (destruct f as [|? f]; [discriminate L|]).
  destruct f; [|discriminate L].
  change (index [b; b0; b1; b2; b3; b4; b5; b6; b7; b8; b9] (-1))
    with (Some b9). cbv beta iota.
  destruct (ord b9 =? 13) eqn:O; simpl; [|reflexivity].
  apply ord_CR in O. subst. exfalso. apply N. split; reflexivity.
Qed.

Lemma protocol_check_crc_raises (f : bytes) (e : exn) :
  Protocol.check_crc f = Raise e -> e = UnicodeDecodeError "utf-8".
Proof.
  unfold Protocol.check_crc, decode_utf8.
  destruct (utf8 (slice (-3) (-1) f)); simpl; congruence.
Qed.

(** X16.  [parse_response] raises [ValueError("Invalid response format")]
    exactly for the inputs that are not eleven bytes ending in CR; a frame
    of correct shape never gets that error. *)
Theorem parse_response_shape_gate (f : bytes) :
  Protocol.parse_response f = Raise (ValueError "Invalid response format")
  <-> ~ shaped f.
Proof.
  split.
  - intros P H. rewrite (parse_response_eq f H) in P.
    destruct (bytes_eqb (slice 0 1 f) (lit "v")).
    + destruct (decode_ascii (slice 1 8 f)) as [digits|e] eqn:D; simpl in P.
      * destruct (int digits) as [n|e] eqn:I; simpl in P.
        -- destruct (Protocol.check_crc f) as [crc|e] eqn:C; simpl in P;
             [discriminate P|].
           apply protocol_check_crc_raises in C. subst. discriminate P.
        -- apply int_raises in I. subst. discriminate P.
      * unfold decode_ascii in D.
        destruct (forallb _ (slice 1 8 f)); [discriminate D|].
        injection D as <-. discriminate P.
    + destruct (Protocol.check_crc f) as [crc|e] eqn:C; simpl in P;
        [discriminate P|].
      apply protocol_check_crc_raises in C. subst. discriminate P.
  - intros N. unfold Protocol.parse_response.
    now rewrite (well_shaped_fails f N).
Qed.

(** What [parse_response] returns comes from a frame of correct shape, and
    its ["Checksum"] is the answer of [check_crc]. *)
Lemma parse_response_returned (f : bytes) (p : Protocol.Parsed) :
  Protocol.parse_response f = Return p ->
  shaped f /\ Protocol.check_crc f = Return (Protocol.Checksum p).
Proof.
  intros P.
  assert (H : shaped f).
  { apply well_shaped_sound. unfold Protocol.parse_response in P.
    destruct (Protocol.well_shaped f) as [[]|]; [reflexivity | discriminate P]. }
  split; [exact H|].
  rewrite (parse_response_eq f H) in P.
  destruct (bytes_eqb (slice 0 1 f) (lit "v")).
  - destruct (decode_ascii (slice 1 8 f)) as [digits|]; simpl in P; [|discriminate P].
    destruct (int digits); simpl in P; [|discriminate P].
    destruct (Protocol.check_crc f); simpl in P; [|discriminate P].
    now injection P as <-.
  - destruct (Protocol.check_crc f); simpl in P; [|discriminate P].
    now injection P as <-.
Qed.

(** X17.  In every result [parse_response] returns, ["Checksum"] is [True]
    exactly when the bytes at offsets 8 and 9 are the two upper-case
    hexadecimal characters of the sum of the first eight bytes modulo
    256. *)
Theorem parse_response_checksum_flag (f : bytes) (p : Protocol.Parsed) :
  Protocol.parse_response f = Return p ->
  (Protocol.Checksum p = true <->
   map ord (checksum_field f) = checksum_text f).
Proof.
  intros P. destruct (parse_response_returned f p P) as [H C].
  rewrite <- (check_crc_verdict f H), check_crc_twins in *.
  destruct (check_crc f) as [[]|[]]; try discriminate C; injection C as <-;
    split; congruence.
Qed.

Lemma parse_response_checksum_flag_witness :
  Protocol.parse_response (frame "v0108750DC") =
    Return {| Protocol.Status := "Valid";
              Protocol.Measured_Range := Some (Protocol.Range (div100 108750));
              Protocol.Checksum := false |} /\
  (false = true <->
   map ord (checksum_field (frame "v0108750DC")) = checksum_text (frame "v0108750DC")).
Proof.
  assert (P : Protocol.parse_response (frame "v0108750DC") =
              Return {| Protocol.Status := "Valid";
                        Protocol.Measured_Range :=
                          Some (Protocol.Range (div100 108750));
                        Protocol.Checksum := false |}) by reflexivity.
  split; [exact P|].
  exact (parse_response_checksum_flag _ _ P).
Defined.

(** ** Further properties: [send_command] *)

Lemma send_command_wire (c : Command) (m : option LPCLMode) (sent : list bytes) :
  send_command c m sent = (Return tt, sent ++ [wire c m]).
Proof. destruct c, m as [[]|]; reflexivity. Qed.

(** X18.  [send_command] never raises and appends exactly one buffer to
    what was written before: START, the three-byte mnemonic, a comma and
    one digit for the levels 1 to 6 and nothing for no level or
    [DEACTIVATE], END.  The buffer is five or seven bytes long and holds CR
    only as its last byte. *)
Theorem send_command_appends_frame (c : Command) (m : option LPCLMode)
    (sent : list bytes) :
  send_command c m sent = (Return tt, sent ++ [wire c m]) /\
  List.length (wire c m) =
    match effective m with Some _ => 7%nat | None => 5%nat end /\
  forallb (fun b => negb (Byte.eqb b x0d)) (removelast (wire c m)) = true /\
  last (wire c m) x00 = x0d.
Proof.
  split; [apply send_command_wire|].
  destruct c, m as [[]|]; repeat split; reflexivity.
Qed.

(** X19.  Two calls write the same buffer exactly when they name the same
    command and the same effective level: distinct commands or levels are
    never confused on the wire, while [DEACTIVATE] and no level are one and
    the same. *)
Theorem send_command_injective (c c' : Command) (m m' : option LPCLMode)
    (sent : list bytes) :
  send_command c m sent = send_command c' m' sent <->
  c = c' /\ effective m = effective m'.
Proof.
  rewrite !send_command_wire. split.
  - intros H. injection H as H. apply app_inv_head in H. injection H as H.
    destruct c, c', m as [[]|], m' as [[]|];
      try discriminate H; split; reflexivity.
  - intros [<- E]. do 3 f_equal. unfold wire. now rewrite E.
Qed.

(** ** Further properties: [CommandBuilder] *)

Import Builder.

Lemma byte_of_Z_ord (b : byte) : ord b < 128 -> byte_of_Z (ord b) = Some b.
Proof.
  intros H. unfold byte_of_Z. pose proof (ord_bounds b).
  rewrite (proj2 (Z.leb_le _ _)), (proj2 (Z.ltb_lt _ _)) by lia. simpl.
  unfold ord. rewrite N2Z.id. apply Byte.of_to_N.
Qed.

Lemma encode_ascii_ord (b : bytes) :
  forallb (fun x => ord x <? 128) b = true ->
  encode_ascii (map ord b) = Return b.
Proof.
  induction b as [|x b IH]; simpl; [reflexivity|].
  intros H. apply andb_true_iff in H as [Hx H]. apply Z.ltb_lt in Hx.
  now rewrite byte_of_Z_ord, IH.
Qed.

Lemma byte_of_Z_inv (c : Z) (b : byte) :
  byte_of_Z c = Some b -> c = ord b /\ ord b < 128.
Proof.
  unfold byte_of_Z.
  destruct ((0 <=? c) && (c <? 128)) eqn:E; [|discriminate].
  apply andb_true_iff in E as [E0 E1].
  apply Z.leb_le in E0. apply Z.ltb_lt in E1.
  intros H. apply Byte.to_of_N in H. unfold ord. rewrite H. lia.
Qed.

(** What [encode('ascii')] returns is the text it was given, byte for
    code point. *)
Lemma encode_ascii_inv (s : pystr) (b : bytes) :
  encode_ascii s = Return b ->
  s = map ord b /\ forallb (fun x => ord x <? 128) b = true.
Proof.
  revert b. induction s as [|c s IH]; intros b; simpl.
  - intros [= <-]. split; reflexivity.
  - destruct (byte_of_Z c) as [x|] eqn:E; [|discriminate].
    destruct (encode_ascii s) as [rest|]; simpl; [|discriminate].
    intros [= <-]. destruct (IH rest eq_refl) as [-> F].
    apply byte_of_Z_inv in E as [-> Hx]. simpl.
    rewrite F, (proj2 (Z.ltb_lt _ _) Hx). split; reflexivity.
Qed.

Lemma pack_string_length (n : nat) (b : bytes) :
  List.length (pack_string n b) = n.
Proof.
  unfold pack_string. rewrite length_app, length_firstn, repeat_length. lia.
Qed.

Lemma pack_string_two (b : bytes) :
  exists x y, pack_string 2 b = [x; y] /\
              pack_string 2 b = pack_string 2 (firstn 2 b).
Proof.
  destruct b as [|x [|y b]]; repeat eexists.
Qed.

(** [build_basic_command] once the two encodings have succeeded. *)
Lemma build_basic_command_packed (uppercase lowercase : value)
    (number : option value) (name : bytes) :
  name_bytes uppercase lowercase = Return name ->
  build_basic_command uppercase lowercase number =
    match number with
    | None => Returns ([x3e] ++ pack_string 2 name ++ [x0d])
    | Some v =>
        match number_bytes v with
        | Return [digit] =>
            Returns ([x3e] ++ pack_string 2 name ++ [digit; x0d])
        | Return _ =>
            Raises (struct_error "char format requires a bytes object of length 1")
        | Raise e => Raises (Codec e)
        end
    end.
Proof.
  intros E. unfold build_basic_command. rewrite E.
  destruct number as [v|].
  - destruct (number_bytes v) as [[|digit [|? ?]]|e]; reflexivity.
  - reflexivity.
Qed.

Lemma build_basic_command_unencodable (uppercase lowercase : value)
    (number : option value) (e : exn) :
  name_bytes uppercase lowercase = Raise e ->
  exists r, build_basic_command uppercase lowercase number = Raises r.
Proof.
  intros E. unfold build_basic_command. rewrite E.
  destruct number as [v|]; simpl; [|eauto].
  destruct (number_bytes v); simpl; eauto.
Qed.

(** X20.  Whatever the lengths of the two name arguments, a command that
    [build_basic_command] returns has fixed width: START, exactly two name
    bytes, one number byte when a number is given, END; four or five
    bytes. *)
Theorem build_basic_command_width (uppercase lowercase : value)
    (number : option value) (r : bytes) :
  build_basic_command uppercase lowercase number = Returns r ->
  List.length r = match number with Some _ => 5%nat | None => 4%nat end /\
  nth_error r 0 = Some x3e /\
  last r x00 = x0d.
Proof.
  destruct (name_bytes uppercase lowercase) as [name|e] eqn:E.
  - rewrite (build_basic_command_packed _ _ _ _ E).
    destruct (pack_string_two name) as (x & y & -> & _).
    destruct number as [v|].
    + destruct (number_bytes v) as [[|digit [|? ?]]|]; try discriminate.
      intros [= <-]. repeat split.
    + intros [= <-]. repeat split.
  - destruct (build_basic_command_unencodable _ _ number _ E) as [x ->].
    discriminate.
Qed.

Lemma build_basic_command_width_witness :
  build_basic_command (Str (text "A")) (Str (text "b")) (Some (Int 5)) =
    Returns (lit ">Ab5" ++ [x0d]) /\
  List.length (lit ">Ab5" ++ [x0d]) = 5%nat /\
  nth_error (lit ">Ab5" ++ [x0d]) 0 = Some x3e /\
  last (lit ">Ab5" ++ [x0d]) x00 = x0d.
Proof.
  assert (B : build_basic_command (Str (text "A")) (Str (text "b")) (Some (Int 5))
              = Returns (lit ">Ab5" ++ [x0d])) by reflexivity.
  split; [exact B|].
  exact (build_basic_command_width _ _ _ _ B).
Defined.

(** X21.  Given the three characters of a command's mnemonic, as when
    [check_responses] spreads ['Md1'] over its arguments, the builder
    returns the very buffer that [send_command] writes for that command
    without a level. *)
Theorem build_basic_command_matches_send_command (c : Command)
    (u l k : byte) (sent : list bytes) :
  Command_value c = [u; l; k] ->
  build_basic_command (Str [ord u]) (Str [ord l]) (Some (Str [ord k])) =
    Returns (wire c None) /\
  send_command c None sent = (Return tt, sent ++ [wire c None]).
Proof.
  intros V. split; [|apply send_command_wire].
  destruct c; injection V as <- <- <-; reflexivity.
Qed.

Lemma build_basic_command_matches_send_command_witness :
  Command_value GET_RANGE = ["M"; "d"; "1"]%byte /\
  build_basic_command (Str [ord "M"%byte]) (Str [ord "d"%byte])
                      (Some (Str [ord "1"%byte])) =
    Returns (wire GET_RANGE None) /\
  send_command GET_RANGE None [] = (Return tt, [] ++ [wire GET_RANGE None]).
Proof.
  assert (V : Command_value GET_RANGE = ["M"; "d"; "1"]%byte) by reflexivity.
  split; [exact V|].
  exact (build_basic_command_matches_send_command GET_RANGE _ _ _ [] V).
Defined.

(** X22.  Only the first two characters of the name are sent: when the two
    name arguments together encode to at least two bytes, the result is the
    one obtained from the first two characters alone. *)
Theorem build_basic_command_truncates_name (uppercase lowercase : value)
    (number : option value) (a b : byte) (more : bytes) :
  name_bytes uppercase lowercase = Return (a :: b :: more) ->
  build_basic_command uppercase lowercase number =
    build_basic_command (Str [ord a]) (Str [ord b]) number.
Proof.
  intros E.
  assert (E2 : name_bytes (Str [ord a]) (Str [ord b]) = Return [a; b]).
  { unfold name_bytes in E.
    destruct (str uppercase) as [upper|]; simpl in E; [|discriminate E].
    destruct (str lowercase) as [lower|]; simpl in E; [|discriminate E].
    apply encode_ascii_inv in E as [_ F]. simpl in F.
    apply andb_true_iff in F as [Fa F]. apply andb_true_iff in F as [Fb _].
    apply (encode_ascii_ord [a; b]). simpl. now rewrite Fa, Fb. }
  now rewrite (build_basic_command_packed _ _ _ _ E),
              (build_basic_command_packed _ _ _ _ E2).
Qed.

Lemma build_basic_command_truncates_name_witness :
  name_bytes (Str (text "Md1")) (Str (text "x")) =
    Return ("M"%byte :: "d"%byte :: lit "1x") /\
  build_basic_command (Str (text "Md1")) (Str (text "x")) None =
    build_basic_command (Str [ord "M"%byte]) (Str [ord "d"%byte]) None.
Proof.
  assert (E : name_bytes (Str (text "Md1")) (Str (text "x")) =
              Return ("M"%byte :: "d"%byte :: lit "1x")) by reflexivity.
  split; [exact E|].
  exact (build_basic_command_truncates_name _ _ None _ _ _ E).
Defined.

(** *** The number field *)

Lemma digits_are_ascii (d : Decimal.uint) :
  forallb (fun x => ord x <? 128)
          (list_byte_of_string (NilEmpty.string_of_uint d)) = true.
Proof.
  induction d; [reflexivity | ..];
    change (forallb (fun x => ord x <? 128)
              (list_byte_of_string (NilEmpty.string_of_uint d)) = true);
    exact IHd.
Qed.

Lemma digits_nonempty (d : Decimal.uint) :
  d <> Decimal.Nil ->
  exists a more, list_byte_of_string (NilEmpty.string_of_uint d) = a :: more.
Proof. destruct d; [contradiction | ..]; intros _; repeat eexists. Qed.

(** A positive number above nine is written with two digits or more. *)
Lemma two_digits (p : positive) :
  9 < Zpos p ->
  exists a b more,
    list_byte_of_string (NilEmpty.string_of_uint (Pos.to_uint p)) = a :: b :: more.
Proof.
  intros H.
  pose proof (DecimalPos.Unsigned.of_to p) as O.
  pose proof (DecimalPos.Unsigned.to_uint_nonnil p) as N.
  destruct (Pos.to_uint p) as [|u|u|u|u|u|u|u|u|u|u]; [contradiction | ..];
    (destruct (digits_nonempty u) as (b & more & E);
     [ intros ->; vm_compute in O;
       first [discriminate O | injection O as <-; lia]
     | cbn [NilEmpty.string_of_uint list_byte_of_string list_ascii_of_string map] in *;
       unfold list_byte_of_string in E; rewrite E; repeat eexists ]).
Qed.

Lemma string_of_uint_nonnil (d : Decimal.uint) :
  d <> Decimal.Nil ->
  NilZero.string_of_uint d = NilEmpty.string_of_uint d.
Proof. destruct d; [contradiction | ..]; reflexivity. Qed.

Lemma number_digit_table :
  forallb (fun k =>
             (digit_count (Z.of_nat k) =? 1) &&
             match number_bytes (Int (Z.of_nat k)) with
             | Return [digit] => ord digit =? 48 + Z.of_nat k
             | _ => false
             end)
          (seq 0 10) = true.
Proof. vm_compute. reflexivity. Qed.

(** The numbers 0 to 9 are written with one digit. *)
Lemma number_digit (n : Z) :
  0 <= n <= 9 ->
  digit_count n = 1 /\
  exists digit, number_bytes (Int n) = Return [digit] /\ ord digit = 48 + n.
Proof.
  intros H. pose proof number_digit_table as T.
  rewrite forallb_forall in T. specialize (T (Z.to_nat n)).
  rewrite Z2Nat.id in T by lia.
  assert (I : In (Z.to_nat n) (seq 0 10)) by (apply in_seq; lia).
  apply T, andb_true_iff in I. destruct I as [C I].
  split; [now apply Z.eqb_eq|].
  destruct (number_bytes (Int n)) as [[|digit [|? ?]]|]; try discriminate I.
  exists digit. split; [reflexivity | now apply Z.eqb_eq].
Qed.

(** Any other number within the limit is written with two characters or
    more. *)
Lemma number_long (n : Z) :
  n < 0 \/ 9 < n ->
  digit_count n <= 4300 ->
  exists a b more, number_bytes (Int n) = Return (a :: b :: more).
Proof.
  intros H C. unfold number_bytes, str, str_int.
  rewrite (proj2 (Z.ltb_ge _ _) C). cbn [bind]. unfold text.
  destruct n as [|p|p]; [lia | |].
  - assert (P : 9 < Zpos p) by lia.
    destruct (two_digits p P) as (a & b & more & E).
    pose proof (digits_are_ascii (Pos.to_uint p)) as A.
    cbn [Z.to_int NilZero.string_of_int].
    rewrite string_of_uint_nonnil by apply DecimalPos.Unsigned.to_uint_nonnil.
    rewrite E in *. exists a, b, more. now apply encode_ascii_ord.
  - pose proof (DecimalPos.Unsigned.to_uint_nonnil p) as N.
    destruct (digits_nonempty _ N) as (b & more & E).
    pose proof (digits_are_ascii (Pos.to_uint p)) as A.
    cbn [Z.to_int NilZero.string_of_int].
    rewrite string_of_uint_nonnil by assumption.
    change (list_byte_of_string
              (String "-" (NilEmpty.string_of_uint (Pos.to_uint p))))
      with ("-"%byte :: list_byte_of_string
                          (NilEmpty.string_of_uint (Pos.to_uint p))).
    rewrite E in *. exists "-"%byte, b, more.
    apply (encode_ascii_ord ("-"%byte :: b :: more)).
    change ((ord "-"%byte <? 128)
            && forallb (fun x => ord x <? 128) (b :: more) = true).
    now rewrite A.
Qed.

(** A number of more than 4300 digits is refused by [str]. *)
Lemma number_refused (n : Z) :
  4300 < digit_count n ->
  number_bytes (Int n) = Raise digits_limit_exceeded.
Proof.
  intros C. unfold number_bytes, str, str_int.
  now rewrite (proj2 (Z.ltb_lt _ _) C).
Qed.

(** X23.  With an [int] for the number and a name that encodes,
    [build_basic_command] returns a command exactly for the numbers 0 to 9.
    A negative number or one of two digits and more makes [struct.pack]
    raise, as long as the number is written with at most 4300 digits; a
    longer one is refused by [str] with a [ValueError] before anything is
    packed. *)
Theorem build_basic_command_single_digit (uppercase lowercase : value)
    (n : Z) (name : bytes) :
  name_bytes uppercase lowercase = Return name ->
  ((exists r, build_basic_command uppercase lowercase (Some (Int n)) = Returns r)
   <-> 0 <= n <= 9) /\
  (build_basic_command uppercase lowercase (Some (Int n)) =
     Raises (struct_error "char format requires a bytes object of length 1")
   <-> (n < 0 \/ 9 < n) /\ digit_count n <= 4300) /\
  (build_basic_command uppercase lowercase (Some (Int n)) =
     Raises (Codec digits_limit_exceeded)
   <-> 4300 < digit_count n).
Proof.
  intros E. rewrite (build_basic_command_packed _ _ _ _ E).
  assert (K : (0 <= n <= 9 /\ digit_count n = 1) \/
              ((n < 0 \/ 9 < n) /\ digit_count n <= 4300) \/
              ((n < 0 \/ 9 < n) /\ 4300 < digit_count n)).
  { destruct (Z_le_gt_dec 0 n); [destruct (Z_le_gt_dec n 9)|];
      [left; split; [lia | now apply number_digit] | ..];
      right; destruct (Z_le_gt_dec (digit_count n) 4300); [left|right|left|right];
      lia. }
  destruct K as [[R C]|[[O C]|[O C]]].
  - destruct (number_digit n R) as (_ & digit & -> & _).
    split; [|split]; (split; intros H);
      try lia; try discriminate H; eauto.
  - destruct (number_long n O C) as (a & b & more & ->).
    split; [|split]; (split; intros H);
      try lia; try discriminate H; try reflexivity; try tauto.
    destruct H as [r H]. discriminate H.
  - rewrite (number_refused n C).
    split; [|split]; (split; intros H);
      try lia; try discriminate H; try reflexivity.
    destruct H as [r H]. discriminate H.
Qed.

Lemma build_basic_command_single_digit_witness :
  name_bytes (Str (text "A")) (Str (text "b")) = Return (lit "Ab") /\
  ((exists r, build_basic_command (Str (text "A")) (Str (text "b")) (Some (Int 10))
              = Returns r) <-> 0 <= 10 <= 9) /\
  (build_basic_command (Str (text "A")) (Str (text "b")) (Some (Int 10)) =
     Raises (struct_error "char format requires a bytes object of length 1")
   <-> (10 < 0 \/ 9 < 10) /\ digit_count 10 <= 4300) /\
  (build_basic_command (Str (text "A")) (Str (text "b")) (Some (Int 10)) =
     Raises (Codec digits_limit_exceeded)
   <-> 4300 < digit_count 10).
Proof.
  assert (E : name_bytes (Str (text "A")) (Str (text "b")) = Return (lit "Ab"))
    by reflexivity.
  split; [exact E|].
  exact (build_basic_command_single_digit _ _ 10 _ E).
Defined.

(** *** The extended form *)





(** X25.  With two parameters, a command that [build_extended_command]
    returns is twenty-one bytes: START, two name bytes, the eight bytes of
    the first parameter as a big-endian binary64 number, a comma at offset
    11, the eight bytes of the second parameter, END. *)
Theorem build_extended_command_layout (uppercase lowercase : value)
    (first_param second_param : Z) (r : bytes) :
  build_extended_command uppercase lowercase first_param (Some second_param)
    = Returns r ->
  exists name first second,
    name_bytes uppercase lowercase = Return name /\
    float first_param = Returns first /\
    float second_param = Returns second /\
    r = [x3e] ++ pack_string 2 name ++ pack_double first ++ [x2c]
        ++ pack_double second ++ [x0d] /\
    List.length r = 21%nat /\
    nth_error r 11 = Some x2c /\
    nth_error r 20 = Some x0d.
Proof.
  unfold build_extended_command.
  destruct (name_bytes uppercase lowercase) as [name|];
    cbn [lift and_then]; [|discriminate].
  destruct (float first_param) as [first|]; cbn [and_then]; [|discriminate].
  destruct (float second_param) as [second|]; cbn [and_then]; [|discriminate].
  intros R. exists name, first, second.
  assert (E : r = [x3e] ++ pack_string 2 name ++ pack_double first ++ [x2c]
                  ++ pack_double second ++ [x0d]).
  { unfold pack in R. simpl in R. now injection R as <-. }
  repeat split; try reflexivity; try assumption; subst r;
    destruct (pack_string_two name) as (x & y & -> & _); reflexivity.
Qed.

Lemma build_extended_command_layout_witness :
  build_extended_command (Str (text "X")) (Str (text "y")) 123 (Some 456) =
    Returns (lit ">Xy" ++ [x40; x5e; xc0; x00; x00; x00; x00; x00] ++ lit ","
             ++ [x40; x7c; x80; x00; x00; x00; x00; x00] ++ [x0d]) /\
  exists name first second,
    name_bytes (Str (text "X")) (Str (text "y")) = Return name /\
    float 123 = Returns first /\
    float 456 = Returns second /\
    lit ">Xy" ++ [x40; x5e; xc0; x00; x00; x00; x00; x00] ++ lit ","
      ++ [x40; x7c; x80; x00; x00; x00; x00; x00] ++ [x0d] =
      [x3e] ++ pack_string 2 name ++ pack_double first ++ [x2c]
      ++ pack_double second ++ [x0d] /\
    List.length (lit ">Xy" ++ [x40; x5e; xc0; x00; x00; x00; x00; x00] ++ lit ","
                 ++ [x40; x7c; x80; x00; x00; x00; x00; x00] ++ [x0d]) = 21%nat /\
    nth_error (lit ">Xy" ++ [x40; x5e; xc0; x00; x00; x00; x00; x00] ++ lit ","
               ++ [x40; x7c; x80; x00; x00; x00; x00; x00] ++ [x0d]) 11 = Some x2c /\
    nth_error (lit ">Xy" ++ [x40; x5e; xc0; x00; x00; x00; x00; x00] ++ lit ","
               ++ [x40; x7c; x80; x00; x00; x00; x00; x00] ++ [x0d]) 20 = Some x0d.
Proof.
  assert (B : build_extended_command (Str (text "X")) (Str (text "y")) 123 (Some 456) =
              Returns (lit ">Xy" ++ [x40; x5e; xc0; x00; x00; x00; x00; x00] ++ lit ","
                       ++ [x40; x7c; x80; x00; x00; x00; x00; x00] ++ [x0d]))
    by (vm_compute; reflexivity).
  split; [exact B|].
  exact (build_extended_command_layout _ _ _ _ _ B).
Defined.
